(** * youtube-music-sync: the download pipeline of [main.py]

    A shallow embedding of the queue builder, the progress hook, the
    download pass and the retry logic of [main.py], followed by the
    properties of the pipeline.

    Python values are modelled as follows.
    - A dict read with [.get] is a record of [option] fields: [None] is a
      key that is missing, [Some v] a key bound to a value of the expected
      type.
    - Python integers are [Z]; strings are [string]; lists are [list].
    - The module globals of [main.py] are the fields of [state], threaded
      through a state-and-exception monad [M].
    - The files on disk are a finite map from paths to contents. It
      records what [main.py] itself writes, that is, the playlist file;
      the media files that the download engine writes into the music
      folder are not part of it.
    - [logging] calls and [tqdm.write] calls append to an output trace; a
      message is kept as the f-string it comes from together with the
      values interpolated in it.
    - The playlist service, the listing of the music folder and the
      download engine are inputs of the run ([world]); failures of the
      environment (the network, the disk) are outside the model: the
      calls to the playlist service are taken as returning, and opening
      the playlist file as succeeding.
    - [main] is modelled from the point where the command line has been
      parsed: [env_file] is the value of [--env]. *)

From Stdlib Require Import ZArith Ascii.
From stdpp Require Import base option list strings gmap.

Local Open Scope Z_scope.

(* ===================================================================== *)
(** * Python strings *)
(* ===================================================================== *)

Module Py.

(** [bool(s)] for a value that is [None] or a string: [None] and the
    empty string are false. *)
Definition truthy (o : option string) : bool :=
  match o with
  | Some s => negb (bool_decide (s = ""))
  | None => false
  end.

(** [s.startswith(p)] *)
Fixpoint startswith (p s : string) : bool :=
  match p, s with
  | "", _ => true
  | String a p', String b s' => bool_decide (a = b) && startswith p' s'
  | String _ _, "" => false
  end.

(** [sub in s] on strings: [sub] occurs in [s] at some position. *)
Fixpoint contains (sub s : string) : bool :=
  startswith sub s ||
  match s with
  | "" => false
  | String _ s' => contains sub s'
  end.

(** [c in s] for a character [c]. *)
Fixpoint occurs (c : ascii) (s : string) : bool :=
  match s with
  | "" => false
  | String a s' => bool_decide (a = c) || occurs c s'
  end.

(** [x or y] on a number that may be missing: the first operand when it
    is present and non-zero, the second otherwise. *)
Definition or_int (x : option Z) (y : Z) : Z :=
  match x with
  | Some v => if bool_decide (v = 0) then y else v
  | None => y
  end.

(** The string ["\n"]. *)
Definition newline : string := String "010"%char "".

(** [a.get(k, dflt)] on a field that may be missing. *)
Definition get {A} (o : option A) (dflt : A) : A := default dflt o.

End Py.

(* ===================================================================== *)
(** * [pathlib]: the stem of a POSIX path *)
(* ===================================================================== *)

Module Path.

(** The components of a path between slashes, from left to right;
    [cur] is the component being read, reversed. *)
Fixpoint split_go (cur : string) (s : string) : list string :=
  match s with
  | "" => [String.rev cur]
  | String c s' =>
      if bool_decide (c = "/"%char)
      then String.rev cur :: split_go "" s'
      else split_go (String c cur) s'
  end.

Definition split (s : string) : list string := split_go "" s.

(** [PurePosixPath(s).parts] without the root: empty components and
    [.] components are dropped. *)
Definition parts (s : string) : list string :=
  filter (λ c, c ≠ "" ∧ c ≠ ".") (split s).

(** [PurePosixPath(s).name]: the last component, or the empty string. *)
Definition name (s : string) : string := default "" (last (parts s)).

(** [nm.rfind('.')]: the index of the last dot of [nm]. *)
Fixpoint rfind_dot (nm : string) : option nat :=
  match nm with
  | "" => None
  | String c nm' =>
      match rfind_dot nm' with
      | Some i => Some (S i)
      | None => if bool_decide (c = "."%char) then Some 0%nat else None
      end
  end.

(** [nm[:i]] *)
Fixpoint take (i : nat) (nm : string) : string :=
  match i, nm with
  | S i', String c nm' => String c (take i' nm')
  | _, _ => ""
  end.

(** [PurePosixPath(s).stem]: the name without its last suffix; a dot in
    first or in last position starts no suffix (the rule of pathlib up to
    Python 3.13). *)
Definition stem (s : string) : string :=
  let nm := name s in
  match rfind_dot nm with
  | Some i =>
      if bool_decide (0 < i)%nat && bool_decide (i < String.length nm - 1)%nat
      then take i nm
      else nm
  | None => nm
  end.

End Path.

(* ===================================================================== *)
(** * Data of the pipeline *)
(* ===================================================================== *)

(** A track of the remote playlist, as read by [build_download_queue]:
    the keys ["title"] and ["videoId"]. *)
Record track := Track {
  track_title : option string;
  track_videoId : option string;
}.

(** The ["info_dict"] entry of a progress event. *)
Record info_dict := InfoDict {
  info_title : option string;
  info_webpage_url : option string;
}.

(** The dict [d] that yt-dlp hands to a progress hook. *)
Record event := Event {
  ev_status : option string;
  ev_total_bytes : option Z;
  ev_total_bytes_estimate : option Z;
  ev_downloaded_bytes : option Z;
  ev_info_dict : option info_dict;
  ev_filename : option string;
  ev_error : option string;
}.

(** [d.get("info_dict", {}).get(k, dflt)] *)
Definition info_get {A} (d : event) (field : info_dict → option A)
    (dflt : A) : A :=
  match ev_info_dict d with
  | Some i => Py.get (field i) dflt
  | None => dflt
  end.

(** [d.get("info_dict", {}).get(k)] *)
Definition info_lookup {A} (d : event) (field : info_dict → option A)
    : option A :=
  match ev_info_dict d with
  | Some i => field i
  | None => None
  end.

(** The dict built by [load_configuration]. *)
Record config := Config {
  client_id : option string;
  client_secret : option string;
  oauth2_filepath : option string;
  cookies_filepath : option string;
  music_folderpath : option string;
  playlist_filepath : option string;
  playlist_id : option string;
}.

(** [config.items()], in the order of the dict literal. *)
Definition config_items (c : config) : list (string * option string) :=
  [ ("client_id", client_id c);
    ("client_secret", client_secret c);
    ("oauth2_filepath", oauth2_filepath c);
    ("cookies_filepath", cookies_filepath c);
    ("music_folderpath", music_folderpath c);
    ("playlist_filepath", playlist_filepath c);
    ("playlist_id", playlist_id c) ].

(** One entry of the ["postprocessors"] option. *)
Record postprocessor := PostProcessor {
  pp_key : string;
  pp_preferredcodec : option string;
  pp_preferredquality : option string;
}.

(** The functions that can be registered as progress hooks. *)
Inductive hook := progress_hook_ref.

(** The options dict built by [create_youtube_dl_options]. *)
Record ydl_opts := YdlOpts {
  opt_format : string;
  opt_paths_home : option string;
  opt_quiet : bool;
  opt_noplaylist : bool;
  opt_postprocessors : list postprocessor;
  opt_progress_hooks : list hook;
  opt_ignoreerrors : bool;
  opt_cookiefile : option string;
}.

(** ** tqdm progress bars

    The part of a [tqdm] object that the program drives: its total, its
    counter [n], its description and unit, and [disable].
    - [tqdm(total=..)] starts at [n = 0], enabled.
    - [update(k)] returns at once on a disabled bar and otherwise does
      [self.n += k]; [k] may be negative.
    - [close()] sets [disable].
    - [bool(bar)] is [tqdm.__bool__]: for a bar whose total is not [None]
      it is [total > 0], so a bar created with total 0 is false. *)
Module Tqdm.

Record t := Bar {
  total : Z;
  n : Z;
  desc : string;
  unit : string;
  disable : bool;
}.

Definition new (total : Z) (unit desc : string) : t :=
  {| total := total; n := 0; desc := desc; unit := unit;
     disable := false |}.

Definition update (k : Z) (b : t) : t :=
  if disable b then b
  else {| total := total b; n := n b + k; desc := desc b;
          unit := unit b; disable := false |}.

Definition close (b : t) : t :=
  {| total := total b; n := n b; desc := desc b; unit := unit b;
     disable := true |}.

Definition bool (b : t) : bool := bool_decide (0 < total b).

End Tqdm.

(** ** The output trace *)

Inductive level := INFO | WARNING | ERROR.

(** The messages of the program, one constructor per message text, with
    the values that the text interpolates. *)
Inductive message :=
  (* "Loaded environment variables from {env_file}" *)
  | MsgLoadedEnv (env_file : string)
  (* "Missing environment variables: {', '.join(missing)}" *)
  | MsgMissingEnv (missing : list string)
  (* "Exiting due to configuration error." *)
  | MsgConfigExit
  (* "Initializing YouTube Music API..." *)
  | MsgInitApi
  (* "Retrieving playlist '{playlist_id}' from YouTube Music..." *)
  | MsgRetrieving (playlist_id : option string)
  (* "Retrieved {len(tracks)} songs from playlist." *)
  | MsgRetrieved (count : Z)
  (* "Scanning for already downloaded songs..." *)
  | MsgScanning
  (* "Found {len(downloaded)} downloaded song(s)." *)
  | MsgFound (count : Z)
  (* "Building the download queue..." *)
  | MsgBuilding
  (* "Skipping track '{title}' (missing video ID)." *)
  | MsgSkipping (title : string)
  (* "Queued: {title}" *)
  | MsgQueued (title : string)
  (* "Already downloaded: {title}" *)
  | MsgAlreadyDownloaded (title : string)
  (* "Total new songs to download: {len(queue)}" *)
  | MsgTotalNew (count : Z)
  (* "Added '{title}' to playlist." *)
  | MsgAdded (title : string)
  (* "Finished downloading: {title}" *)
  | MsgFinished (title : string)
  (* "Error downloading {failed_url}: {error_msg}" *)
  | MsgErrorDownloading (failed_url : option string) (error_msg : string)
  (* "No new songs to download. Exiting." *)
  | MsgNoNewSongs
  (* "Starting downloads (first attempt)..." *)
  | MsgStarting
  (* "First download attempt completed." *)
  | MsgFirstCompleted
  (* "Retrying {len(retry_list)} failed downloads with cookies enabled..." *)
  | MsgRetrying (count : Z)
  (* "After retry, {len(failed_urls)} downloads still failed: {failed_urls}" *)
  | MsgAfterRetry (count : Z) (urls : list string)
  (* "All failed downloads succeeded on retry." *)
  | MsgAllRetrySucceeded
  (* "Downloads failed for {len(failed_urls)} songs: {failed_urls}" *)
  | MsgDownloadsFailed (count : Z) (urls : list string)
  (* "All downloads completed." *)
  | MsgAllCompleted.

Inductive output :=
  | Log (lvl : level) (m : message)
  | TqdmWrite (m : message).

(** ** The state of the process

    The module globals of [main.py], the files on disk, the output trace,
    and the invocations of the download engine made so far. *)
Record state := State {
  global_progress_bar : option Tqdm.t;
  individual_progress_bar : option Tqdm.t;
  PLAYLIST_FILEPATH : option string;
  failed_urls : list string;
  files : gmap string string;
  out : list output;
  ydl_calls : list (list string * ydl_opts);
}.

(** The state when [main] starts: the globals as the module initialises
    them, on a given disk. *)
Definition initial_state (disk : gmap string string) : state :=
  {| global_progress_bar := None; individual_progress_bar := None;
     PLAYLIST_FILEPATH := None; failed_urls := [];
     files := disk; out := []; ydl_calls := [] |}.

Definition set_global_progress_bar (b : option Tqdm.t) (s : state) : state :=
  {| global_progress_bar := b;
     individual_progress_bar := individual_progress_bar s;
     PLAYLIST_FILEPATH := PLAYLIST_FILEPATH s; failed_urls := failed_urls s;
     files := files s; out := out s; ydl_calls := ydl_calls s |}.

Definition set_individual_progress_bar (b : option Tqdm.t) (s : state)
    : state :=
  {| global_progress_bar := global_progress_bar s;
     individual_progress_bar := b;
     PLAYLIST_FILEPATH := PLAYLIST_FILEPATH s; failed_urls := failed_urls s;
     files := files s; out := out s; ydl_calls := ydl_calls s |}.

Definition set_PLAYLIST_FILEPATH (p : option string) (s : state) : state :=
  {| global_progress_bar := global_progress_bar s;
     individual_progress_bar := individual_progress_bar s;
     PLAYLIST_FILEPATH := p; failed_urls := failed_urls s;
     files := files s; out := out s; ydl_calls := ydl_calls s |}.

Definition set_failed_urls (l : list string) (s : state) : state :=
  {| global_progress_bar := global_progress_bar s;
     individual_progress_bar := individual_progress_bar s;
     PLAYLIST_FILEPATH := PLAYLIST_FILEPATH s; failed_urls := l;
     files := files s; out := out s; ydl_calls := ydl_calls s |}.

Definition set_files (f : gmap string string) (s : state) : state :=
  {| global_progress_bar := global_progress_bar s;
     individual_progress_bar := individual_progress_bar s;
     PLAYLIST_FILEPATH := PLAYLIST_FILEPATH s; failed_urls := failed_urls s;
     files := f; out := out s; ydl_calls := ydl_calls s |}.

Definition set_out (o : list output) (s : state) : state :=
  {| global_progress_bar := global_progress_bar s;
     individual_progress_bar := individual_progress_bar s;
     PLAYLIST_FILEPATH := PLAYLIST_FILEPATH s; failed_urls := failed_urls s;
     files := files s; out := o; ydl_calls := ydl_calls s |}.

Definition set_ydl_calls (c : list (list string * ydl_opts)) (s : state)
    : state :=
  {| global_progress_bar := global_progress_bar s;
     individual_progress_bar := individual_progress_bar s;
     PLAYLIST_FILEPATH := PLAYLIST_FILEPATH s; failed_urls := failed_urls s;
     files := files s; out := out s; ydl_calls := c |}.

(** What the program reads from outside: the command line, the
    environment after [load_dotenv], the answer of the playlist service,
    the listing of the music folder, and the download engine, which maps
    the submitted URLs and options to the events it delivers to the
    progress hooks. *)
Record world := World {
  env_file : string;
  environ : gmap string string;
  api_tracks : option (list track);
  folder_mp3 : list string;
  ydl_events : list string → ydl_opts → list event;
}.

(* ===================================================================== *)
(** * The monad of the program: state and exceptions *)
(* ===================================================================== *)

Inductive exn :=
  | ValueError (msg : string)
  | AttributeError
  | TypeError
  | SystemExit (code : Z).

Inductive result (A : Type) :=
  | Ok (a : A)
  | Raise (e : exn).
Arguments Ok {A} a.
Arguments Raise {A} e.

Definition M (A : Type) : Type := state → result A * state.

Definition ret {A} (a : A) : M A := λ s, (Ok a, s).

Definition bind {A B} (c : M A) (k : A → M B) : M B :=
  λ s, match c s with
       | (Ok a, s') => k a s'
       | (Raise e, s') => (Raise e, s')
       end.

Definition raise {A} (e : exn) : M A := λ s, (Raise e, s).

Definition gets {A} (f : state → A) : M A := λ s, (Ok (f s), s).

Definition modify (f : state → state) : M () := λ s, (Ok (), f s).

Declare Scope py_scope.
Delimit Scope py_scope with py.
Notation "x <- c ;; k" := (bind c (λ x, k))
  (at level 100, c at next level, right associativity) : py_scope.
Notation "c ;; k" := (bind c (λ _, k))
  (at level 100, right associativity) : py_scope.
Local Open Scope py_scope.

(** [for x in l: body x], with the local variables carried in [acc]. *)
Fixpoint for_in {A B} (l : list A) (acc : B) (body : B → A → M B) : M B :=
  match l with
  | [] => ret acc
  | x :: l' => acc' <- body acc x ;; for_in l' acc' body
  end.

(** [for x in l: body x], no local variable carried. *)
Definition for_each {A} (l : list A) (body : A → M ()) : M () :=
  for_in l () (λ _ x, body x).

(** [logging.<lvl>(m)] and [tqdm.write(m)] *)
Definition logging (lvl : level) (m : message) : M () :=
  modify (λ s, set_out (out s ++ [Log lvl m]) s).

Definition tqdm_write (m : message) : M () :=
  modify (λ s, set_out (out s ++ [TqdmWrite m]) s).

(** [try: c  except ValueError: handler] *)
Definition try_except_ValueError {A} (c : M A) (handler : M A) : M A :=
  λ s, match c s with
       | (Raise (ValueError _), s') => handler s'
       | r => r
       end.

(** [sys.exit(code)] *)
Definition sys_exit {A} (code : Z) : M A := raise (SystemExit code).

(** [len(l)] *)
Definition len {A} (l : list A) : Z := Z.of_nat (length l).

(* ===================================================================== *)
(** * The functions of [main.py] *)
(* ===================================================================== *)

Definition load_configuration (environ : gmap string string) : M config :=
  let config :=
    {| client_id := environ !! "OAUTH2_CLIENT_ID";
       client_secret := environ !! "OAUTH2_CLIENT_SECRET";
       oauth2_filepath := environ !! "OAUTH2_FILEPATH";
       cookies_filepath := environ !! "COOKIES_FILEPATH";
       music_folderpath := environ !! "MUSIC_FOLDERPATH";
       playlist_filepath := environ !! "PLAYLIST_FILEPATH";
       playlist_id := environ !! "PLAYLIST_ID" |} in
  let missing :=
    (filter (λ kv, kv.1 ≠ "cookies_filepath" ∧ kv.2 = None)
            (config_items config)).*1 in
  match missing with
  | _ :: _ =>
      logging ERROR (MsgMissingEnv missing) ;;
      raise (ValueError
        "Configuration incomplete. Please set the missing environment variables.")
  | [] => ret config
  end.

(** The service client is outside the model: only the log line of
    [initialize_api] is kept. The construction of the client, which can
    raise, is taken as succeeding. *)
Definition initialize_api (config : config) : M () :=
  logging INFO MsgInitApi.

(** [data] is the answer of [api.get_playlist]; [api_tracks] is its
    ["tracks"] entry. *)
Definition get_playlist (api_tracks : option (list track))
    (playlist_id : option string) : M (list track) :=
  logging INFO (MsgRetrieving playlist_id) ;;
  let tracks := Py.get api_tracks [] in
  logging INFO (MsgRetrieved (len tracks)) ;;
  ret tracks.

(** [folder_mp3] is the listing [Path(music_folderpath).glob("*.mp3")]
    restricted to regular files, as names. *)
Definition get_already_downloaded (folder_mp3 : list string)
    : M (list string) :=
  logging INFO MsgScanning ;;
  let downloaded := folder_mp3 in
  logging INFO (MsgFound (len downloaded)) ;;
  ret downloaded.

(** [any(f"[{video_id}]" in filename for filename in already_downloaded)] *)
Definition any_contains (video_id : string)
    (already_downloaded : list string) : bool :=
  existsb (Py.contains ("[" +:+ video_id +:+ "]")) already_downloaded.

Definition build_download_queue (tracks : list track)
    (already_downloaded : list string) : M (list string) :=
  logging INFO MsgBuilding ;;
  queue <- for_in tracks [] (λ queue track,
    let title := Py.get (track_title track) "Unknown Title" in
    let video_id := track_videoId track in
    if negb (Py.truthy video_id) then
      logging WARNING (MsgSkipping title) ;;
      ret queue
    else
      let video_id := Py.get video_id "" in
      if negb (any_contains video_id already_downloaded) then
        let url := "https://music.youtube.com/watch?v=" +:+ video_id in
        logging INFO (MsgQueued title) ;;
        ret (queue ++ [url])
      else
        logging INFO (MsgAlreadyDownloaded title) ;;
        ret queue) ;;
  logging INFO (MsgTotalNew (len queue)) ;;
  ret queue.

Definition create_youtube_dl_options (config : config) (use_cookies : bool)
    : ydl_opts :=
  let opts :=
    {| opt_format := "mp3/bestaudio/best";
       opt_paths_home := music_folderpath config;
       opt_quiet := true;
       opt_noplaylist := true;
       opt_postprocessors :=
         [ {| pp_key := "FFmpegExtractAudio";
              pp_preferredcodec := Some "mp3";
              pp_preferredquality := Some "320" |};
           {| pp_key := "EmbedThumbnail";
              pp_preferredcodec := None; pp_preferredquality := None |};
           {| pp_key := "FFmpegMetadata";
              pp_preferredcodec := None; pp_preferredquality := None |} ];
       opt_progress_hooks := [progress_hook_ref];
       opt_ignoreerrors := true;
       opt_cookiefile := None |} in
  if use_cookies && Py.truthy (cookies_filepath config) then
    {| opt_format := opt_format opts;
       opt_paths_home := opt_paths_home opts;
       opt_quiet := opt_quiet opts;
       opt_noplaylist := opt_noplaylist opts;
       opt_postprocessors := opt_postprocessors opts;
       opt_progress_hooks := opt_progress_hooks opts;
       opt_ignoreerrors := opt_ignoreerrors opts;
       opt_cookiefile := cookies_filepath config |}
  else opts.

(** [open(path, "a")] followed by [write(entry)]: the file, created empty
    when it does not exist, gets [entry] at its end. [open(None, "a")]
    is a [TypeError]. *)
Definition append_to_file (path : option string) (entry : string) : M () :=
  match path with
  | None => raise TypeError
  | Some p =>
      modify (λ s,
        set_files (<[p := default "" (files s !! p) +:+ entry]> (files s)) s)
  end.

Definition update_playlist (filename title : string) : M () :=
  let entry := "/srv/music/" +:+ filename +:+ Py.newline in
  path <- gets PLAYLIST_FILEPATH ;;
  append_to_file path entry ;;
  tqdm_write (MsgAdded title).

(** [global_progress_bar.update(1)]; on [None] it is an
    [AttributeError]. *)
Definition global_update : M () :=
  bar <- gets global_progress_bar ;;
  match bar with
  | None => raise AttributeError
  | Some g => modify (set_global_progress_bar (Some (Tqdm.update 1 g)))
  end.

(** The test and body shared by the "finished" and "error" branches:
    [if individual_progress_bar: individual_progress_bar.close();
     individual_progress_bar = None] *)
Definition close_individual : M () :=
  bar <- gets individual_progress_bar ;;
  match bar with
  | Some b =>
      if Tqdm.bool b then modify (set_individual_progress_bar None)
      else ret ()
  | None => ret ()
  end.

Definition progress_hook (d : event) : M () :=
  let status := ev_status d in
  if bool_decide (status = Some "downloading") then
    bar <- gets individual_progress_bar ;;
    match bar with
    | None =>
        let total_bytes :=
          Py.or_int (ev_total_bytes d)
            (Py.or_int (ev_total_bytes_estimate d) 0) in
        let title := info_get d info_title "Downloading" in
        modify (set_individual_progress_bar
                  (Some (Tqdm.new total_bytes "B"
                           ("Downloading: " +:+ title))))
    | Some b =>
        let downloaded_bytes := Py.get (ev_downloaded_bytes d) 0 in
        modify (set_individual_progress_bar
                  (Some (Tqdm.update (downloaded_bytes - Tqdm.n b) b)))
    end
  else if bool_decide (status = Some "finished") then
    close_individual ;;
    global_update ;;
    let filepath := Py.get (ev_filename d) "" in
    let filename := Path.stem filepath +:+ ".mp3" in
    let title := info_get d info_title "Unknown Title" in
    update_playlist filename title ;;
    tqdm_write (MsgFinished title)
  else if bool_decide (status = Some "error") then
    close_individual ;;
    let error_msg := Py.get (ev_error d) "Unknown error" in
    let failed_url := info_lookup d info_webpage_url in
    logging ERROR (MsgErrorDownloading failed_url error_msg) ;;
    urls <- gets failed_urls ;;
    (if Py.truthy failed_url
        && negb (bool_decide (Py.get failed_url "" ∈ urls))
     then modify (set_failed_urls (urls ++ [Py.get failed_url ""]))
     else ret ()) ;;
    global_update
  else ret ().

Definition call_hook (h : hook) (d : event) : M () :=
  match h with
  | progress_hook_ref => progress_hook d
  end.

(** [ydl] stands for the download engine: [ydl songs opts] is the list of
    events that [YoutubeDL(opts).download(songs)] delivers, in order, to
    the hooks registered in [opts]. What the engine writes on its own,
    the media files of the music folder, is not recorded in [files]. *)
Definition download_songs (ydl : list string → ydl_opts → list event)
    (songs_to_download : list string) (youtube_dl_opts : ydl_opts) : M () :=
  let total_songs := len songs_to_download in
  modify (set_global_progress_bar
            (Some (Tqdm.new total_songs "song" "Overall Progress"))) ;;
  modify (λ s, set_ydl_calls
                 (ydl_calls s ++ [(songs_to_download, youtube_dl_opts)]) s) ;;
  for_each (ydl songs_to_download youtube_dl_opts) (λ d,
    for_each (opt_progress_hooks youtube_dl_opts) (λ h, call_hook h d)) ;;
  bar <- gets global_progress_bar ;;
  match bar with
  | None => raise AttributeError
  | Some g => modify (set_global_progress_bar (Some (Tqdm.close g)))
  end.

(** [main] after [parser.parse_args()]: [env_file w] is [args.env]. *)
Definition main (w : world) : M () :=
  logging INFO (MsgLoadedEnv (env_file w)) ;;
  config <- try_except_ValueError
              (load_configuration (environ w))
              (logging ERROR MsgConfigExit ;; sys_exit 1) ;;
  modify (set_PLAYLIST_FILEPATH (playlist_filepath config)) ;;
  initialize_api config ;;
  tracks <- get_playlist (api_tracks w) (playlist_id config) ;;
  downloaded_files <- get_already_downloaded (folder_mp3 w) ;;
  songs_to_download <- build_download_queue tracks downloaded_files ;;
  (if bool_decide (songs_to_download = []) then
     logging INFO MsgNoNewSongs ;; sys_exit 0
   else ret ()) ;;
  let ytdl_opts := create_youtube_dl_options config false in
  logging INFO MsgStarting ;;
  download_songs (ydl_events w) songs_to_download ytdl_opts ;;
  logging INFO MsgFirstCompleted ;;
  failed <- gets failed_urls ;;
  (if negb (bool_decide (failed = [])) && Py.truthy (cookies_filepath config)
   then
     let retry_list := failed in
     modify (set_failed_urls []) ;;
     logging INFO (MsgRetrying (len retry_list)) ;;
     let ytdl_opts_retry := create_youtube_dl_options config true in
     download_songs (ydl_events w) retry_list ytdl_opts_retry ;;
     failed <- gets failed_urls ;;
     if negb (bool_decide (failed = [])) then
       logging ERROR (MsgAfterRetry (len failed) failed)
     else
       logging INFO MsgAllRetrySucceeded
   else if negb (bool_decide (failed = [])) then
     logging ERROR (MsgDownloadsFailed (len failed) failed)
   else ret ()) ;;
  logging INFO MsgAllCompleted.

(** The run of the whole program on a disk: what [main] raises, if
    anything, and the final state. *)
Definition run_main (w : world) (disk : gmap string string)
    : result () * state :=
  main w (initial_state disk).

(** The exit code of the process: 0 when [main] returns, the code given
    to [sys.exit], 1 for an exception that is not caught. *)
Definition exit_code (r : result ()) : Z :=
  match r with
  | Ok _ => 0
  | Raise (SystemExit c) => c
  | Raise _ => 1
  end.

(* ===================================================================== *)
(** * Vocabulary of the properties *)
(* ===================================================================== *)

(** [sub] occurs in [s]: some text before it, some text after it. *)
Definition substring (sub s : string) : Prop :=
  ∃ before after, s = before +:+ sub +:+ after.

(** The watch URL of a video identifier. *)
Definition video_url (video_id : string) : string :=
  "https://music.youtube.com/watch?v=" +:+ video_id.

(** The URL a track contributes to the queue, if any: the track has a
    non-empty identifier and no local file name contains its bracketed
    token. *)
Definition queued_url (already_downloaded : list string) (t : track)
    : option string :=
  match track_videoId t with
  | Some v =>
      if bool_decide (v = "") then None
      else if any_contains v already_downloaded then None
      else Some (video_url v)
  | None => None
  end.

Definition queue_of (tracks : list track) (already_downloaded : list string)
    : list string :=
  omap (queued_url already_downloaded) tracks.

(** The line logged for a track by the queue builder. *)
Definition queue_log (already_downloaded : list string) (t : track)
    : output :=
  let title := default "Unknown Title" (track_title t) in
  match track_videoId t with
  | Some v =>
      if bool_decide (v = "") then Log WARNING (MsgSkipping title)
      else if any_contains v already_downloaded
           then Log INFO (MsgAlreadyDownloaded title)
           else Log INFO (MsgQueued title)
  | None => Log WARNING (MsgSkipping title)
  end.

(** A terminal event: the download of an item finished or failed. *)
Definition is_terminal (d : event) : bool :=
  bool_decide (ev_status d = Some "finished")
  || bool_decide (ev_status d = Some "error").

Definition count_terminal (events : list event) : Z :=
  len (List.filter is_terminal events).

(** The URL that an event reports as failed: the event is an error and
    carries a non-empty source URL. *)
Definition reported_failure (d : event) : option string :=
  if bool_decide (ev_status d = Some "error") then
    match info_lookup d info_webpage_url with
    | Some u => if bool_decide (u = "") then None else Some u
    | None => None
    end
  else None.

(** The URLs reported as failed by the events of a pass, with repeats. *)
Definition pass_failures (events : list event) : list string :=
  omap reported_failure events.

(** The failed URLs after one event, and after a list of events. *)
Definition record_failure (d : event) (urls : list string) : list string :=
  match reported_failure d with
  | Some u => if bool_decide (u ∈ urls) then urls else urls ++ [u]
  | None => urls
  end.

Definition record_failures (events : list event) (urls : list string)
    : list string :=
  fold_left (λ urls d, record_failure d urls) events urls.

(** The configuration read from an environment, and the required keys
    that it lacks. *)
Definition getenv_config (environ : gmap string string) : config :=
  {| client_id := environ !! "OAUTH2_CLIENT_ID";
     client_secret := environ !! "OAUTH2_CLIENT_SECRET";
     oauth2_filepath := environ !! "OAUTH2_FILEPATH";
     cookies_filepath := environ !! "COOKIES_FILEPATH";
     music_folderpath := environ !! "MUSIC_FOLDERPATH";
     playlist_filepath := environ !! "PLAYLIST_FILEPATH";
     playlist_id := environ !! "PLAYLIST_ID" |}.

Definition config_missing (c : config) : list string :=
  (filter (λ kv, kv.1 ≠ "cookies_filepath" ∧ kv.2 = None)
          (config_items c)).*1.

Definition world_config (w : world) : config := getenv_config (environ w).

Definition world_queue (w : world) : list string :=
  queue_of (default [] (api_tracks w)) (folder_mp3 w).

(** A cookies file is configured: the setting is there and is not the
    empty string, which is how the program tests it. *)
Definition cookies_configured (c : config) : Prop :=
  ∃ path, cookies_filepath c = Some path ∧ path ≠ "".

(** The condition under which [main] starts the retry pass. *)
Definition retry_condition (c : config) (failed : list string) : bool :=
  negb (bool_decide (failed = [])) && Py.truthy (cookies_filepath c).

(** The report logged after the retry pass, and after a first pass that
    is not retried. *)
Definition retry_report (failed : list string) : output :=
  if bool_decide (failed = []) then Log INFO MsgAllRetrySucceeded
  else Log ERROR (MsgAfterRetry (len failed) failed).

Definition first_report (failed : list string) : list output :=
  if bool_decide (failed = []) then []
  else [Log ERROR (MsgDownloadsFailed (len failed) failed)].

(** An event with every missing field replaced by the default that the
    hook uses for it. The title defaults to ["Downloading"] in a
    "downloading" event and to ["Unknown Title"] otherwise; the source URL
    has no default. *)
Definition with_defaults (d : event) : event :=
  {| ev_status := ev_status d;
     ev_total_bytes := Some (default 0 (ev_total_bytes d));
     ev_total_bytes_estimate := Some (default 0 (ev_total_bytes_estimate d));
     ev_downloaded_bytes := Some (default 0 (ev_downloaded_bytes d));
     ev_info_dict :=
       Some {| info_title :=
                 Some (info_get d info_title
                         (if bool_decide (ev_status d = Some "downloading")
                          then "Downloading" else "Unknown Title"));
               info_webpage_url := info_lookup d info_webpage_url |};
     ev_filename := Some (default "" (ev_filename d));
     ev_error := Some (default "Unknown error" (ev_error d)) |}.

(** The line that a "finished" event adds to the playlist file. *)
Definition playlist_line (d : event) : string :=
  "/srv/music/" +:+ Path.stem (default "" (ev_filename d)) +:+ ".mp3"
  +:+ Py.newline.

(** ["/".join(comps)] *)
Fixpoint join_path (comps : list string) : string :=
  match comps with
  | [] => ""
  | c :: comps' =>
      match comps' with
      | [] => c
      | _ :: _ => c +:+ "/" +:+ join_path comps'
      end
  end.

(** The base name of a path, in words: cut the path at its slashes; the
    base name is the last piece that is neither empty nor [.], and it is
    empty when there is no such piece. *)
Definition base_name (path name : string) : Prop :=
  ∃ comps,
    path = join_path comps ∧
    Forall (λ c, Py.occurs "/" c = false) comps ∧
    name = default "" (last (filter (λ c, c ≠ "" ∧ c ≠ ".") comps)).

(** A name without its extension, in words: [stem] when the name is
    [stem.ext] for a [stem] that is not empty and an [ext] that is not
    empty and has no dot; the name itself when it has no such form (no
    dot, or a single dot in first position, or a dot in last
    position). *)
Definition without_extension (name stem : string) : Prop :=
  (∃ ext, name = stem +:+ "." +:+ ext ∧ stem ≠ "" ∧ ext ≠ ""
          ∧ Py.occurs "." ext = false)
  ∨ (stem = name
     ∧ ∀ base ext, name = base +:+ "." +:+ ext → Py.occurs "." ext = false →
                   base = "" ∨ ext = "").

(** The number of newline characters of a text. *)
Fixpoint count_newlines (s : string) : nat :=
  match s with
  | "" => 0
  | String c s' =>
      ((if bool_decide (c = "010"%char) then 1 else 0) + count_newlines s')%nat
  end.

(** One line per "finished" event, as the specification words it: the
    event adds to the playlist file a text without newline followed by a
    newline. *)
Definition one_line_per_finished_event : Prop :=
  ∀ d s g p,
    ev_status d = Some "finished" →
    global_progress_bar s = Some g →
    PLAYLIST_FILEPATH s = Some p →
    ∃ line,
      count_newlines line = 0%nat ∧
      files (progress_hook d s).2 !! p
      = Some (default "" (files s !! p) +:+ line +:+ Py.newline).

(** Monotonic tracking, as the specification words it: while a tracker
    is active, no "downloading" event lowers its displayed count, with or
    without the cumulative-bytes field. *)
Definition tracker_never_regresses : Prop :=
  ∀ d s b,
    ev_status d = Some "downloading" →
    individual_progress_bar s = Some b →
    Tqdm.disable b = false →
    ∃ b', individual_progress_bar (progress_hook d s).2 = Some b'
          ∧ Tqdm.n b ≤ Tqdm.n b'.

(** ** Sample data *)

Module Sample.

Definition env : gmap string string :=
  list_to_map
    [ ("OAUTH2_CLIENT_ID", "client"); ("OAUTH2_CLIENT_SECRET", "secret");
      ("OAUTH2_FILEPATH", "/etc/oauth.json");
      ("COOKIES_FILEPATH", "/etc/cookies.txt");
      ("MUSIC_FOLDERPATH", "/srv/music");
      ("PLAYLIST_FILEPATH", "/srv/music/liked.m3u");
      ("PLAYLIST_ID", "LM") ].

Definition tracks : list track :=
  [ {| track_title := Some "One"; track_videoId := Some "id1" |};
    {| track_title := Some "Two"; track_videoId := Some "id2" |};
    {| track_title := None; track_videoId := None |};
    {| track_title := Some "Empty"; track_videoId := Some "" |} ].

Definition folder : list string := ["One [id1].mp3"].

Definition info (u : option string) : option info_dict :=
  Some {| info_title := Some "Two"; info_webpage_url := u |}.

Definition downloading (total done : option Z) : event :=
  {| ev_status := Some "downloading"; ev_total_bytes := total;
     ev_total_bytes_estimate := None; ev_downloaded_bytes := done;
     ev_info_dict := info (Some (video_url "id2"));
     ev_filename := Some "/srv/music/Two [id2].webm"; ev_error := None |}.

Definition finished : event :=
  {| ev_status := Some "finished"; ev_total_bytes := Some 500;
     ev_total_bytes_estimate := None; ev_downloaded_bytes := Some 500;
     ev_info_dict := info (Some (video_url "id2"));
     ev_filename := Some "/srv/music/Two [id2].webm"; ev_error := None |}.

(** A "finished" event for a file whose name holds a newline. *)
Definition finished_two_lines : event :=
  {| ev_status := Some "finished"; ev_total_bytes := Some 500;
     ev_total_bytes_estimate := None; ev_downloaded_bytes := Some 500;
     ev_info_dict := info (Some (video_url "id2"));
     ev_filename :=
       Some ("/srv/music/Two" +:+ Py.newline +:+ "Part [id2].webm");
     ev_error := None |}.

Definition error (u : option string) : event :=
  {| ev_status := Some "error"; ev_total_bytes := None;
     ev_total_bytes_estimate := None; ev_downloaded_bytes := None;
     ev_info_dict := info u; ev_filename := None;
     ev_error := Some "HTTP Error 403" |}.

(** An engine that fails on every URL without cookies, reporting the
    failure twice, and succeeds with cookies. *)
Definition ydl (songs : list string) (opts : ydl_opts) : list event :=
  match opt_cookiefile opts with
  | None =>
      mjoin ((λ u, [downloading (Some 500) None; error (Some u);
                    error (Some u)]) <$> songs)
  | Some _ =>
      mjoin ((λ _, [downloading (Some 500) None;
                    downloading (Some 500) (Some 250); finished]) <$> songs)
  end.

(** An engine that delivers one "finished" event per URL. *)
Definition ydl_ok (songs : list string) (opts : ydl_opts) : list event :=
  (λ _, finished) <$> songs.

Definition w : world :=
  {| env_file := ".env"; environ := env; api_tracks := Some tracks;
     folder_mp3 := folder; ydl_events := ydl |}.

(** The same world when every track is already in the music folder. *)
Definition w_synced : world :=
  {| env_file := ".env"; environ := env; api_tracks := Some tracks;
     folder_mp3 := ["One [id1].mp3"; "Two [id2].mp3"];
     ydl_events := ydl |}.

(** The same world when the cookies setting is the empty string. *)
Definition w_blank_cookies : world :=
  {| env_file := ".env"; environ := <["COOKIES_FILEPATH" := ""]> env;
     api_tracks := Some tracks; folder_mp3 := folder; ydl_events := ydl |}.

(** The state in which a pass runs its hooks: the playlist path is set
    and the aggregate bar is open. *)
Definition pass_state : state :=
  set_global_progress_bar (Some (Tqdm.new 1 "song" "Overall Progress"))
    (set_PLAYLIST_FILEPATH (Some "/srv/music/liked.m3u")
       (initial_state ∅)).

(** The state after a first "downloading" event and a second one that
    reports 100 bytes. *)
Definition tracking_state : state :=
  (for_each [downloading (Some 500) None; downloading (Some 500) (Some 100)]
     progress_hook pass_state).2.

(** A "downloading" event without the ["downloaded_bytes"] field. *)
Definition no_bytes : event := downloading (Some 500) None.

End Sample.

(* ===================================================================== *)
(** * Vocabulary of the further properties *)
(* ===================================================================== *)

(** The settings that [load_configuration] requires: the key of the
    configuration and the environment variable it is read from, in the
    order of the dict literal. [cookies_filepath] is not among them. *)
Definition required_settings : list (string * string) :=
  [ ("client_id", "OAUTH2_CLIENT_ID");
    ("client_secret", "OAUTH2_CLIENT_SECRET");
    ("oauth2_filepath", "OAUTH2_FILEPATH");
    ("music_folderpath", "MUSIC_FOLDERPATH");
    ("playlist_filepath", "PLAYLIST_FILEPATH");
    ("playlist_id", "PLAYLIST_ID") ].

(** The keys of the required settings whose variable is unset. *)
Definition unset_settings (environ : gmap string string) : list string :=
  omap (λ kv, match environ !! kv.2 with
              | None => Some kv.1
              | Some _ => None
              end) required_settings.

Definition is_finished (d : event) : bool :=
  bool_decide (ev_status d = Some "finished").

Definition is_downloading (d : event) : bool :=
  bool_decide (ev_status d = Some "downloading").

(** The lines that the "finished" events of a list add to the playlist
    file, in order. *)
Fixpoint playlist_lines (events : list event) : string :=
  match events with
  | [] => ""
  | d :: events' =>
      (if is_finished d then playlist_line d else "")
      +:+ playlist_lines events'
  end.

(** The tracker that a first "downloading" event opens. *)
Definition opened_tracker (d : event) : Tqdm.t :=
  Tqdm.new
    (Py.or_int (ev_total_bytes d) (Py.or_int (ev_total_bytes_estimate d) 0))
    "B" ("Downloading: " +:+ info_get d info_title "Downloading").

(** [name.endswith(suffix)] *)
Definition endswith (suffix name : string) : bool :=
  Py.startswith (String.rev suffix) (String.rev name).

(** An entry of the music folder: its name, and whether it is a regular
    file (or a link to one). *)
Record dir_entry := DirEntry {
  entry_name : string;
  entry_is_file : bool;
}.

(** The listing that [get_already_downloaded] computes from the entries
    of the music folder:
    [[file.name for file in Path(folder).glob("*.mp3") if file.is_file()]].
    The pattern keeps the names that end in [.mp3], hidden ones too. *)
Definition glob_mp3 (entries : list dir_entry) : list string :=
  entry_name <$>
    List.filter (λ e, endswith ".mp3" (entry_name e) && entry_is_file e)
                entries.

(** A tracker after a list of "downloading" events: it shows the
    cumulative byte count of the last one, 0 when the event has none. *)
Definition tracked (b : Tqdm.t) (events : list event) : Tqdm.t :=
  match last events with
  | Some d =>
      {| Tqdm.total := Tqdm.total b;
         Tqdm.n := default 0 (ev_downloaded_bytes d);
         Tqdm.desc := Tqdm.desc b; Tqdm.unit := Tqdm.unit b;
         Tqdm.disable := false |}
  | None => b
  end.

(** The lines that a run adds to the playlist file: none when it exits
    before the first pass, else those of the first pass followed by those
    of the retry pass when there is one. *)
Definition run_playlist_lines (w : world) : string :=
  let config := world_config w in
  let queue := world_queue w in
  if bool_decide (config_missing config = [])
     && negb (bool_decide (queue = []))
  then
    let events1 :=
      ydl_events w queue (create_youtube_dl_options config false) in
    let failed := record_failures events1 [] in
    playlist_lines events1
    +:+ (if retry_condition config failed
         then playlist_lines
                (ydl_events w failed (create_youtube_dl_options config true))
         else "")
  else "".

(* ===================================================================== *)
(** * Strings and paths *)
(* ===================================================================== *)

Lemma string_app_cons a s t : String a s +:+ t = String a (s +:+ t).
Proof. reflexivity. Qed.

Lemma string_app_nil_l s : "" +:+ s = s.
Proof. reflexivity. Qed.

Lemma string_app_assoc s t u : (s +:+ t) +:+ u = s +:+ t +:+ u.
Proof.
  induction s as [|a s IH]; [done|].
  by rewrite !string_app_cons, IH.
Qed.

Lemma startswith_spec p : ∀ s,
  Py.startswith p s = true ↔ ∃ rest, s = p +:+ rest.
Proof.
  induction p as [|a p IH]; intros s.
  - split; [|done]. intros _. by exists s.
  - destruct s as [|b s].
    + split; [done|]. intros [rest Hrest]. discriminate Hrest.
    + cbn [Py.startswith]. rewrite andb_true_iff, bool_decide_eq_true, IH.
      split.
      * intros [-> [rest ->]]. by exists rest.
      * intros [rest Hrest]. rewrite string_app_cons in Hrest.
        injection Hrest as -> ->. eauto.
Qed.

Lemma contains_spec sub : ∀ s,
  Py.contains sub s = true ↔ substring sub s.
Proof.
  unfold substring.
  induction s as [|c s IH]; cbn [Py.contains]; rewrite orb_true_iff.
  - rewrite startswith_spec. split.
    + intros [[rest Hrest]|?]; [|done]. by exists "", rest.
    + intros (before & after & Heq). left.
      destruct before; [|discriminate Heq].
      by exists after.
  - rewrite startswith_spec, IH. split.
    + intros [[rest Hrest]|(before & after & Heq)].
      * by exists "", rest.
      * exists (String c before), after. by rewrite string_app_cons, Heq.
    + intros (before & after & Heq). destruct before as [|b before].
      * left. by exists after.
      * right. rewrite string_app_cons in Heq. injection Heq as _ ->.
        by exists before, after.
Qed.

Lemma any_contains_spec video_id already_downloaded :
  any_contains video_id already_downloaded = true ↔
  ∃ filename, filename ∈ already_downloaded
              ∧ substring ("[" +:+ video_id +:+ "]") filename.
Proof.
  unfold any_contains. rewrite existsb_exists.
  split; intros (f & Hin & Hf); exists f.
  - by rewrite list_elem_of_In, <- contains_spec.
  - by rewrite <- list_elem_of_In, contains_spec.
Qed.

Lemma any_contains_false video_id already_downloaded :
  any_contains video_id already_downloaded = false ↔
  ∀ filename, filename ∈ already_downloaded →
              ¬ substring ("[" +:+ video_id +:+ "]") filename.
Proof.
  rewrite <- not_true_iff_false, any_contains_spec. split.
  - intros Hno f Hin Hsub. apply Hno. eauto.
  - intros Hall (f & Hin & Hsub). by apply (Hall f).
Qed.

Lemma rev_app_rev_app s : ∀ t u,
  String.rev_app (String.rev_app s t) u = String.rev_app t (s +:+ u).
Proof.
  induction s as [|a s IH]; intros t u; simpl; [done|].
  rewrite IH. simpl. by rewrite string_app_cons.
Qed.

Lemma string_app_nil_r s : s +:+ "" = s.
Proof. induction s as [|a s IH]; [done|]. by rewrite string_app_cons, IH. Qed.

Lemma split_go_no_slash nm : ∀ cur,
  Py.occurs "/" nm = false →
  Path.split_go cur nm = [String.rev (String.rev_app nm cur)].
Proof.
  induction nm as [|c nm IH]; intros cur Hno; simpl in *; [done|].
  apply orb_false_iff in Hno as [Hc Hno].
  rewrite Hc. by apply IH.
Qed.

Lemma split_no_slash nm : Py.occurs "/" nm = false → Path.split nm = [nm].
Proof.
  intros Hno. unfold Path.split. rewrite split_go_no_slash by done.
  unfold String.rev. rewrite rev_app_rev_app. simpl.
  by rewrite string_app_nil_r.
Qed.

Lemma last_split_go dir nm : ∀ cur,
  Py.occurs "/" nm = false →
  last (Path.split_go cur (dir +:+ String "/" nm)) = Some nm.
Proof.
  induction dir as [|c dir IH]; intros cur Hno.
  - rewrite string_app_nil_l. simpl.
    fold (Path.split nm). by rewrite split_no_slash.
  - rewrite string_app_cons. simpl. case_bool_decide.
    + rewrite last_cons, IH; done.
    + by apply IH.
Qed.

Lemma last_filter_keep {A} (P : A → Prop) `{∀ x, Decision (P x)}
    (l : list A) x :
  last l = Some x → P x → last (filter P l) = Some x.
Proof.
  intros Hlast HP. induction l as [|a l IH]; [done|].
  rewrite last_cons in Hlast. rewrite filter_cons.
  destruct (last l) as [y|] eqn:Hl.
  - injection Hlast as ->. case_decide; [rewrite last_cons|]; by rewrite IH.
  - injection Hlast as ->. apply last_None in Hl as ->.
    rewrite decide_True by done. done.
Qed.

Lemma name_of_path dir nm :
  Py.occurs "/" nm = false → nm ≠ "" → nm ≠ "." →
  Path.name (dir +:+ "/" +:+ nm) = nm.
Proof.
  intros Hno Hne Hdot. unfold Path.name, Path.parts, Path.split.
  change ("/" +:+ nm) with (String "/" nm).
  by rewrite (last_filter_keep _ _ nm (last_split_go dir nm "" Hno)).
Qed.

Lemma name_of_bare nm :
  Py.occurs "/" nm = false → nm ≠ "" → nm ≠ "." → Path.name nm = nm.
Proof.
  intros Hno Hne Hdot. unfold Path.name, Path.parts.
  rewrite split_no_slash by done. rewrite filter_cons, decide_True by done.
  done.
Qed.

Lemma rfind_dot_no_dot ext :
  Py.occurs "." ext = false → Path.rfind_dot ext = None.
Proof.
  induction ext as [|c ext IH]; simpl; [done|].
  intros [Hc Hno]%orb_false_iff. rewrite IH by done. by rewrite Hc.
Qed.

Lemma rfind_dot_base_ext base ext :
  Py.occurs "." ext = false →
  Path.rfind_dot (base +:+ "." +:+ ext) = Some (String.length base).
Proof.
  intros Hno. induction base as [|c base IH].
  - rewrite string_app_nil_l. change ("." +:+ ext) with (String "." ext).
    simpl. by rewrite rfind_dot_no_dot.
  - rewrite string_app_cons. simpl. by rewrite IH.
Qed.

Lemma path_take_app base rest :
  Path.take (String.length base) (base +:+ rest) = base.
Proof.
  induction base as [|c base IH]; [done|].
  rewrite string_app_cons. simpl. by rewrite IH.
Qed.

Lemma string_length_app s t :
  String.length (s +:+ t) = (String.length s + String.length t)%nat.
Proof.
  induction s as [|a s IH]; [done|]. rewrite string_app_cons. simpl.
  by rewrite IH.
Qed.

Lemma py_occurs_app c s t :
  Py.occurs c (s +:+ t) = Py.occurs c s || Py.occurs c t.
Proof.
  induction s as [|a s IH]; [done|]. rewrite string_app_cons. simpl.
  by rewrite IH, orb_assoc.
Qed.

Lemma stem_of_name base ext :
  base ≠ "" → ext ≠ "" → Py.occurs "." ext = false →
  (let nm := base +:+ "." +:+ ext in
   match Path.rfind_dot nm with
   | Some i =>
       if bool_decide (0 < i)%nat && bool_decide (i < String.length nm - 1)%nat
       then Path.take i nm
       else nm
   | None => nm
   end) = base.
Proof.
  intros Hb He Hno. simpl. rewrite rfind_dot_base_ext by done.
  rewrite path_take_app, !string_length_app.
  destruct base as [|b base]; [done|]. destruct ext as [|e ext]; [done|].
  rewrite !bool_decide_eq_true_2 by (simpl; lia). done.
Qed.

Lemma stem_dir_base_ext dir base ext :
  base ≠ "" → ext ≠ "" →
  Py.occurs "/" base = false → Py.occurs "/" ext = false →
  Py.occurs "." ext = false →
  Path.stem (dir +:+ "/" +:+ base +:+ "." +:+ ext) = base.
Proof.
  intros Hb He Hsb Hse Hde. unfold Path.stem.
  rewrite name_of_path.
  - by apply stem_of_name.
  - rewrite !py_occurs_app, Hsb, Hse. done.
  - destruct base; done.
  - destruct base as [|b [|b' base]]; [done| |done].
    destruct ext; [done|]. rewrite string_app_cons. simpl. done.
Qed.

(** ** Reversal *)

Lemma string_rev_app_app s : ∀ t u,
  String.rev_app (s +:+ t) u = String.rev_app t (String.rev_app s u).
Proof.
  induction s as [|a s IH]; intros t u; [done|].
  rewrite string_app_cons. simpl. apply IH.
Qed.

Lemma string_rev_app s t : String.rev (s +:+ t) = String.rev t +:+ String.rev s.
Proof.
  unfold String.rev. rewrite string_rev_app_app.
  generalize (String.rev_app s ""). revert s.
  assert (∀ t u v, String.rev_app t (u +:+ v) = String.rev_app t u +:+ v)
    as Hgen.
  { clear. induction t as [|a t IH]; intros u v; [done|]. simpl.
    by rewrite <- IH, string_app_cons. }
  intros _ r. by rewrite <- (Hgen t "" r).
Qed.

Lemma string_rev_involutive s : String.rev (String.rev s) = s.
Proof.
  unfold String.rev. rewrite rev_app_rev_app. simpl.
  by rewrite string_app_nil_r.
Qed.

(** ** The base name and the stem, apart from their computation *)

Lemma string_rev_cons c s :
  String.rev (String c s) = String.rev s +:+ String c "".
Proof.
  change (String c s) with (String c "" +:+ s).
  by rewrite string_rev_app.
Qed.

Lemma split_go_not_nil s : ∀ cur, Path.split_go cur s ≠ [].
Proof.
  induction s as [|c s IH]; intros cur; simpl; [done|].
  case_bool_decide; [done|apply IH].
Qed.

Lemma join_path_cons c comps :
  comps ≠ [] → join_path (c :: comps) = c +:+ "/" +:+ join_path comps.
Proof. by destruct comps. Qed.

(** Cutting a path at its slashes gives pieces without slash that,
    joined by slashes, are the path. *)
Lemma join_split_go s : ∀ cur,
  join_path (Path.split_go cur s) = String.rev cur +:+ s.
Proof.
  induction s as [|c s IH]; intros cur; simpl.
  - by rewrite string_app_nil_r.
  - case_bool_decide as Hc.
    + subst c. rewrite join_path_cons by apply split_go_not_nil.
      by rewrite IH.
    + rewrite IH, string_rev_cons, string_app_assoc. done.
Qed.

Lemma split_go_components s : ∀ cur,
  Py.occurs "/" (String.rev cur) = false →
  Forall (λ c, Py.occurs "/" c = false) (Path.split_go cur s).
Proof.
  induction s as [|c s IH]; intros cur Hcur; simpl.
  - by apply Forall_singleton.
  - case_bool_decide as Hc.
    + apply Forall_cons. split; [done|]. by apply IH.
    + apply IH. rewrite string_rev_cons, py_occurs_app, Hcur. simpl.
      rewrite orb_false_r. by apply bool_decide_eq_false.
Qed.

(** [Path.name] computes the base name. *)
Lemma base_name_of_path path : base_name path (Path.name path).
Proof.
  exists (Path.split path). unfold Path.split. split; [|split].
  - by rewrite join_split_go.
  - by apply split_go_components.
  - done.
Qed.

Lemma rfind_dot_None nm :
  Path.rfind_dot nm = None → Py.occurs "." nm = false.
Proof.
  induction nm as [|c nm IH]; simpl; [done|].
  destruct (Path.rfind_dot nm); [done|].
  case_bool_decide as Hc; [done|]. intros _.
  by rewrite IH.
Qed.

Lemma rfind_dot_Some nm : ∀ i,
  Path.rfind_dot nm = Some i →
  ∃ ext, nm = Path.take i nm +:+ "." +:+ ext
         ∧ Py.occurs "." ext = false
         ∧ String.length (Path.take i nm) = i.
Proof.
  induction nm as [|c nm IH]; intros i; simpl; [done|].
  destruct (Path.rfind_dot nm) as [j|] eqn:Hj.
  - intros [= <-]. destruct (IH j eq_refl) as (ext & Heq & Hext & Hlen).
    exists ext. simpl. rewrite string_app_cons, <- Heq, Hlen. done.
  - case_bool_decide as Hc; [|done]. intros [= <-]. subst c.
    exists nm. split; [done|]. split; [|done]. by apply rfind_dot_None.
Qed.

(** [Path.stem] computes the name without its extension. *)
Lemma without_extension_of_name path :
  without_extension (Path.name path) (Path.stem path).
Proof.
  unfold Path.stem. generalize (Path.name path). intros nm. simpl.
  destruct (Path.rfind_dot nm) as [i|] eqn:Hi.
  - destruct (rfind_dot_Some nm i Hi) as (ext & Heq & Hext & Hlen).
    destruct (bool_decide (0 < i)%nat
              && bool_decide (i < String.length nm - 1)%nat) eqn:Hcond.
    + apply andb_true_iff in Hcond as [H0 H1].
      apply bool_decide_eq_true in H0, H1.
      left. exists ext. split; [done|].
      assert (String.length nm = (i + S (String.length ext))%nat) as Hnm.
      { rewrite Heq at 1. rewrite string_length_app, Hlen.
        change ("." +:+ ext) with (String "." ext). done. }
      split; [|split; [|done]].
      * intros E. rewrite E in Hlen. simpl in Hlen. lia.
      * intros ->. simpl in Hnm. lia.
    + right. split; [done|]. intros base ext' Hnm Hext'.
      pose proof (rfind_dot_base_ext base ext' Hext') as Hr.
      rewrite <- Hnm, Hi in Hr. injection Hr as ->.
      apply andb_false_iff in Hcond as [H0|H1].
      * apply bool_decide_eq_false in H0. left.
        destruct base; [done|]. simpl in H0. lia.
      * apply bool_decide_eq_false in H1. right.
        rewrite Hnm, !string_length_app in H1.
        destruct ext'; [done|]. simpl in H1. lia.
  - right. split; [done|]. intros base ext' Hnm Hext'.
    pose proof (rfind_dot_base_ext base ext' Hext') as Hr.
    rewrite <- Hnm, Hi in Hr. done.
Qed.

Lemma count_newlines_app s t :
  count_newlines (s +:+ t) = (count_newlines s + count_newlines t)%nat.
Proof.
  induction s as [|c s IH]; [done|]. rewrite string_app_cons. simpl.
  rewrite IH. lia.
Qed.

Lemma count_newlines_entry stem :
  count_newlines ("/srv/music/" +:+ stem +:+ ".mp3" +:+ Py.newline)
  = S (count_newlines stem).
Proof. rewrite !count_newlines_app. simpl. lia. Qed.

Lemma string_app_inj_r x y z : x +:+ z = y +:+ z → x = y.
Proof.
  intros Heq. apply (f_equal String.rev) in Heq.
  rewrite !string_rev_app in Heq.
  apply (inj (String.app _)) in Heq.
  by rewrite <- (string_rev_involutive x), Heq, string_rev_involutive.
Qed.

Lemma string_app_sep_inj ch a : ∀ a' x x',
  Py.occurs ch a = false → Py.occurs ch a' = false →
  a +:+ String ch x = a' +:+ String ch x' → a = a' ∧ x = x'.
Proof.
  induction a as [|c a IH]; intros [|c' a'] x x' Ha Ha' Heq.
  - injection Heq as ->. done.
  - rewrite string_app_nil_l, string_app_cons in Heq. injection Heq as <- _.
    simpl in Ha'. by rewrite bool_decide_eq_true_2 in Ha'.
  - rewrite string_app_nil_l, string_app_cons in Heq. injection Heq as -> _.
    simpl in Ha. by rewrite bool_decide_eq_true_2 in Ha.
  - rewrite !string_app_cons in Heq. injection Heq as -> Heq.
    simpl in Ha, Ha'.
    apply orb_false_iff in Ha as [_ Ha]. apply orb_false_iff in Ha' as [_ Ha'].
    destruct (IH a' x x' Ha Ha' Heq) as [-> ->]. done.
Qed.

Lemma split_go_app c rest : ∀ cur,
  Py.occurs "/" c = false →
  Path.split_go cur (c +:+ String "/" rest)
  = String.rev (String.rev_app c cur) :: Path.split_go "" rest.
Proof.
  induction c as [|a c IH]; intros cur Hno; [done|].
  rewrite string_app_cons. simpl in *.
  apply orb_false_iff in Hno as [Ha Hno]. rewrite Ha. by apply IH.
Qed.

Lemma split_join_path comps :
  comps ≠ [] →
  Forall (λ c, Py.occurs "/" c = false) comps →
  Path.split (join_path comps) = comps.
Proof.
  induction comps as [|c comps IH]; [done|]. intros _ Hall.
  apply Forall_cons in Hall as [Hc Hall].
  destruct comps as [|c' comps].
  - by apply split_no_slash.
  - rewrite join_path_cons by done. unfold Path.split.
    change ("/" +:+ join_path (c' :: comps))
      with (String "/" (join_path (c' :: comps))).
    rewrite split_go_app by done.
    fold (Path.split (join_path (c' :: comps))). rewrite IH by done.
    f_equal. fold (String.rev c). apply string_rev_involutive.
Qed.

(** Both descriptions determine their result. *)
Lemma base_name_spec path name :
  base_name path name ↔ name = Path.name path.
Proof.
  split.
  - intros (comps & -> & Hall & ->). unfold Path.name, Path.parts.
    destruct comps as [|c comps]; [done|].
    by rewrite split_join_path.
  - intros ->. apply base_name_of_path.
Qed.

Lemma without_extension_functional name stem stem' :
  without_extension name stem → without_extension name stem' → stem = stem'.
Proof.
  intros [(ext & Hn & Hs & He & Hd)|[-> Hnone]]
         [(ext' & Hn' & Hs' & He' & Hd')|[-> Hnone']].
  - pose proof (rfind_dot_base_ext stem ext Hd) as Hr.
    pose proof (rfind_dot_base_ext stem' ext' Hd') as Hr'.
    rewrite <- Hn in Hr. rewrite <- Hn', Hr in Hr'. injection Hr' as Hlen.
    rewrite <- (path_take_app stem ("." +:+ ext)), <- Hn, Hlen, Hn'.
    apply path_take_app.
  - destruct (Hnone' stem ext Hn Hd); done.
  - destruct (Hnone stem' ext' Hn' Hd'); done.
  - done.
Qed.

Lemma without_extension_spec path stem :
  without_extension (Path.name path) stem ↔ stem = Path.stem path.
Proof.
  split.
  - intros H. apply (without_extension_functional _ _ _ H).
    apply without_extension_of_name.
  - intros ->. apply without_extension_of_name.
Qed.

(** The stem of [dir/base.ext] is [base]. *)
Example stem_of_media_file :
  Path.stem ("/srv/music" +:+ "/" +:+ "Two [id2]" +:+ "." +:+ "webm")
  = "Two [id2]".
Proof. by apply stem_dir_base_ext. Qed.

Example stem_webm : Path.stem "/srv/dl/Song [id2].webm" = "Song [id2]".
Proof. reflexivity. Qed.
Example stem_two_dots : Path.stem "a.b.c" = "a.b".
Proof. reflexivity. Qed.
Example stem_hidden : Path.stem "dir/.hidden" = ".hidden".
Proof. reflexivity. Qed.
Example stem_trailing_dot : Path.stem "foo." = "foo.".
Proof. reflexivity. Qed.
Example stem_trailing_slash : Path.stem "a/b.x/" = "b".
Proof. reflexivity. Qed.
Example stem_dot_component : Path.stem "a.y/." = "a".
Proof. reflexivity. Qed.
Example stem_empty : Path.stem "" = "".
Proof. reflexivity. Qed.

(* ===================================================================== *)
(** * Running the monad *)
(* ===================================================================== *)

Ltac unfold_m :=
  repeat (progress unfold close_individual, global_update, update_playlist,
    logging, tqdm_write, bind, gets, modify, ret, raise).

Tactic Notation "mstep" := unfold bind at 1; simpl.
Tactic Notation "mstep" "in" hyp(H) := unfold bind at 1 in H; simpl in H.

Lemma set_out_out s : set_out (out s) s = s.
Proof. by destruct s. Qed.

Lemma for_each_cons {A} (x : A) l body s :
  for_each (x :: l) body s =
    match body x s with
    | (Ok _, s') => for_each l body s'
    | (Raise e, s') => (Raise e, s')
    end.
Proof.
  unfold for_each. cbn [for_in]. unfold bind.
  by destruct (body x s) as [[[]|e] s'].
Qed.

(** A property of the state that every iteration keeps, whether it
    returns or raises, holds after the loop. *)
Lemma for_each_preserves {A} (P : state → Prop) (body : A → M ()) l :
  (∀ x s, P s → P (body x s).2) →
  ∀ s, P s → P (for_each l body s).2.
Proof.
  intros Hbody. induction l as [|x l IH]; intros s Hs; [done|].
  rewrite for_each_cons. specialize (Hbody x s Hs).
  destruct (body x s) as [[[]|e] s']; simpl in *; auto.
Qed.

(* ===================================================================== *)
(** * The queue builder *)
(* ===================================================================== *)

(** The loop of [build_download_queue], started with a queue and a state:
    it extends the queue by the URLs of [queue_of] and the log by one
    line per track. *)
Lemma queue_loop already_downloaded tracks : ∀ queue s,
  for_in tracks queue (λ queue track,
    let title := Py.get (track_title track) "Unknown Title" in
    let video_id := track_videoId track in
    if negb (Py.truthy video_id) then
      logging WARNING (MsgSkipping title) ;;
      ret queue
    else
      let video_id := Py.get video_id "" in
      if negb (any_contains video_id already_downloaded) then
        let url := "https://music.youtube.com/watch?v=" +:+ video_id in
        logging INFO (MsgQueued title) ;;
        ret (queue ++ [url])
      else
        logging INFO (MsgAlreadyDownloaded title) ;;
        ret queue) s
  = (Ok (queue ++ queue_of tracks already_downloaded),
     set_out (out s ++ map (queue_log already_downloaded) tracks) s).
Proof.
  induction tracks as [|t tracks IH]; intros queue s.
  - simpl. unfold ret. by rewrite !app_nil_r, set_out_out.
  - cbn [for_in]. unfold bind at 1.
    unfold queue_of, queued_url, queue_log. cbn [omap map list_omap].
    destruct t as [title [v|]]; simpl.
    + destruct (bool_decide (v = "")); simpl.
      * unfold_m. simpl. rewrite IH. simpl. by rewrite <- app_assoc.
      * destruct (any_contains v already_downloaded); simpl; unfold_m; simpl;
          rewrite IH; simpl; rewrite <- ?app_assoc; done.
    + unfold_m. simpl. rewrite IH. simpl. by rewrite <- app_assoc.
Qed.

Lemma build_download_queue_run tracks already_downloaded s :
  build_download_queue tracks already_downloaded s =
    (Ok (queue_of tracks already_downloaded),
     set_out (out s ++ [Log INFO MsgBuilding]
                ++ map (queue_log already_downloaded) tracks
                ++ [Log INFO
                      (MsgTotalNew (len (queue_of tracks already_downloaded)))])
             s).
Proof.
  unfold build_download_queue. unfold bind at 1. unfold logging at 1, modify.
  unfold bind at 1. rewrite queue_loop. simpl. unfold_m. simpl.
  by rewrite <- !app_assoc.
Qed.

Lemma queued_url_spec already_downloaded t url :
  queued_url already_downloaded t = Some url ↔
  ∃ video_id,
    track_videoId t = Some video_id ∧ video_id ≠ "" ∧
    (∀ filename, filename ∈ already_downloaded →
                 ¬ substring ("[" +:+ video_id +:+ "]") filename) ∧
    url = video_url video_id.
Proof.
  unfold queued_url. destruct (track_videoId t) as [v|].
  - case_bool_decide as Hv.
    + split; [done|]. intros (v' & [= <-] & Hne & _). done.
    + destruct (any_contains v already_downloaded) eqn:Hany.
      * split; [done|]. intros (v' & [= <-] & _ & Hall & _).
        apply (proj2 (any_contains_false _ _)) in Hall. congruence.
      * pose proof (proj1 (any_contains_false _ _) Hany) as Hall. split.
        -- intros [= <-]. by exists v.
        -- intros (v' & [= <-] & _ & _ & ->). done.
  - split; [done|]. intros (v' & [=] & _).
Qed.

(** A track whose [videoId] is the empty string is treated as a track
    without identifier. *)
Example empty_video_id_is_skipped :
  let r := build_download_queue
             [ {| track_title := Some "Empty"; track_videoId := Some "" |} ]
             [] (initial_state ∅) in
  r.1 = Ok [] ∧
  out r.2 = [Log INFO MsgBuilding; Log WARNING (MsgSkipping "Empty");
             Log INFO (MsgTotalNew 0)].
Proof. split; reflexivity. Qed.

Example sample_queue :
  (build_download_queue Sample.tracks Sample.folder (initial_state ∅)).1
  = Ok [video_url "id2"].
Proof. vm_compute. reflexivity. Qed.

(** C1. For every track list and every list of local file names,
    [build_download_queue] returns (it never raises) exactly the watch
    URLs, in playlist order, of the tracks that have an identifier (a
    non-empty [videoId]) whose token [[videoId]] is a substring of no local
    file name. A track without identifier is logged at WARNING level and
    contributes nothing; a track whose token occurs in a local file name
    contributes nothing either. *)
Theorem build_download_queue_exact tracks already_downloaded s :
  ∃ s',
    build_download_queue tracks already_downloaded s
      = (Ok (omap (queued_url already_downloaded) tracks), s') ∧
    out s' = out s ++ [Log INFO MsgBuilding]
               ++ map (queue_log already_downloaded) tracks
               ++ [Log INFO
                     (MsgTotalNew
                        (len (omap (queued_url already_downloaded) tracks)))] ∧
    (∀ t url,
       queued_url already_downloaded t = Some url ↔
       ∃ video_id,
         track_videoId t = Some video_id ∧ video_id ≠ "" ∧
         (∀ filename, filename ∈ already_downloaded →
                      ¬ substring ("[" +:+ video_id +:+ "]") filename) ∧
         url = "https://music.youtube.com/watch?v=" +:+ video_id) ∧
    (∀ t, Py.truthy (track_videoId t) = false ↔
          queue_log already_downloaded t
          = Log WARNING
              (MsgSkipping (default "Unknown Title" (track_title t)))).
Proof.
  eexists. split; [apply build_download_queue_run|].
  split; [reflexivity|]. split.
  - intros t url. apply queued_url_spec.
  - intros t. unfold queue_log, Py.truthy.
    destruct (track_videoId t) as [v|]; [|done].
    case_bool_decide; simpl; [done|].
    destruct (any_contains v already_downloaded); split; intros; done.
Qed.

(* ===================================================================== *)
(** * The progress hook *)
(* ===================================================================== *)

(** One event, in a state whose aggregate bar is open and whose playlist
    path is set: the hook returns, the aggregate counter moves by one
    exactly on a terminal event, and the failed URLs are those of
    [record_failure]. *)
Lemma progress_hook_step d s g p :
  global_progress_bar s = Some g →
  Tqdm.disable g = false →
  PLAYLIST_FILEPATH s = Some p →
  ∃ s' g',
    progress_hook d s = (Ok (), s') ∧
    global_progress_bar s' = Some g' ∧
    Tqdm.disable g' = false ∧
    Tqdm.total g' = Tqdm.total g ∧
    Tqdm.n g' = Tqdm.n g + (if is_terminal d then 1 else 0) ∧
    PLAYLIST_FILEPATH s' = Some p ∧
    ydl_calls s' = ydl_calls s ∧
    failed_urls s' = record_failure d (failed_urls s).
Proof.
  intros Hg Hd Hp.
  unfold progress_hook, is_terminal, record_failure, reported_failure.
  destruct (bool_decide (ev_status d = Some "downloading")) eqn:E1.
  { apply bool_decide_eq_true in E1. rewrite E1. simpl.
    unfold_m. destruct (individual_progress_bar s) as [b|];
      simpl; eexists _, g; simpl; (split; [reflexivity|]);
      rewrite ?Z.add_0_r; done. }
  destruct (bool_decide (ev_status d = Some "finished")) eqn:E2.
  { apply bool_decide_eq_true in E2. rewrite E2. simpl. unfold_m.
    destruct (individual_progress_bar s) as [b|]; [destruct (Tqdm.bool b)|];
      simpl; rewrite Hg; simpl; rewrite Hp; simpl;
      unfold Tqdm.update; rewrite Hd; simpl.
    all: eexists _, _; (split; [reflexivity|]); simpl; done. }
  destruct (bool_decide (ev_status d = Some "error")) eqn:E3.
  { simpl. unfold_m. unfold info_lookup, Py.truthy, Py.get.
    destruct (individual_progress_bar s) as [b|]; [destruct (Tqdm.bool b)|];
      simpl.
    all: destruct (ev_info_dict d) as [[t [u|]]|]; simpl.
    all: try destruct (bool_decide (u = "")); simpl.
    all: try destruct (bool_decide (u ∈ failed_urls s)); simpl.
    all: rewrite Hg; simpl; unfold Tqdm.update; rewrite Hd; simpl.
    all: eexists _, _; (split; [reflexivity|]); simpl; done. }
  simpl. eexists s, g. unfold ret. rewrite Z.add_0_r. done.
Qed.

(** The failed URLs after one event, in any state and whether the hook
    returns or raises: unchanged, or extended as [record_failure] says. *)
Lemma progress_hook_failed_urls d s :
  failed_urls (progress_hook d s).2 = failed_urls s ∨
  failed_urls (progress_hook d s).2 = record_failure d (failed_urls s).
Proof.
  unfold progress_hook, record_failure, reported_failure.
  destruct (bool_decide (ev_status d = Some "downloading")) eqn:E1.
  { unfold_m. destruct (individual_progress_bar s); simpl; auto. }
  destruct (bool_decide (ev_status d = Some "finished")) eqn:E2.
  { left. unfold_m. unfold append_to_file.
    destruct (individual_progress_bar s) as [b|]; [destruct (Tqdm.bool b)|];
      simpl; destruct (global_progress_bar s); simpl;
      destruct (PLAYLIST_FILEPATH s); simpl; done. }
  destruct (bool_decide (ev_status d = Some "error")) eqn:E3; [|by left].
  right. unfold_m. unfold info_lookup, Py.truthy, Py.get.
  destruct (individual_progress_bar s) as [b|]; [destruct (Tqdm.bool b)|];
    simpl.
  all: destruct (ev_info_dict d) as [[t [u|]]|]; simpl.
  all: try destruct (bool_decide (u = "")); simpl.
  all: try destruct (bool_decide (u ∈ failed_urls s)); simpl.
  all: destruct (global_progress_bar s); simpl; done.
Qed.

(** ** The failed URLs of a pass *)

Lemma record_failure_NoDup d urls :
  NoDup urls → NoDup (record_failure d urls).
Proof.
  intros Hnd. unfold record_failure.
  destruct (reported_failure d) as [u|]; [|done].
  case_bool_decide as Hin; [done|].
  apply NoDup_app. split_and!; [done| |apply NoDup_singleton].
  intros x Hx ->%list_elem_of_singleton. done.
Qed.

Lemma record_failures_NoDup events : ∀ urls,
  NoDup urls → NoDup (record_failures events urls).
Proof.
  induction events as [|d events IH]; intros urls Hnd; [done|].
  simpl. apply IH. by apply record_failure_NoDup.
Qed.

Lemma elem_of_record_failure d urls u :
  u ∈ record_failure d urls ↔ u ∈ urls ∨ reported_failure d = Some u.
Proof.
  unfold record_failure. destruct (reported_failure d) as [v|].
  - case_bool_decide as Hin.
    + split; [auto|]. intros [?|[= ->]]; done.
    + rewrite elem_of_app, list_elem_of_singleton.
      split; (intros [?|?]; [by left|right; congruence]).
  - split; [by left|]. by intros [?|?].
Qed.

Lemma elem_of_record_failures events : ∀ urls u,
  u ∈ record_failures events urls ↔ u ∈ urls ∨ u ∈ pass_failures events.
Proof.
  induction events as [|d events IH]; intros urls u.
  - simpl. unfold pass_failures. simpl. rewrite elem_of_nil. tauto.
  - simpl. rewrite IH, elem_of_record_failure.
    unfold pass_failures. simpl.
    destruct (reported_failure d) as [v|]; simpl.
    + rewrite elem_of_cons.
      split; [intros [[?|[= ->]]|?]|intros [?|[->|?]]]; auto.
    + split; [intros [[?|?]|?]|intros [?|?]]; auto; done.
Qed.

(** C5. In one pass, for every list of events the engine delivers, the
    failed URLs hold no URL twice: if they are duplicate-free when
    [download_songs] starts (they are empty when [main] starts a pass),
    they are duplicate-free when it ends, whether it returns or raises and
    however many error events carry the same source URL. *)
Theorem failed_urls_no_duplicates ydl songs_to_download youtube_dl_opts s :
  NoDup (failed_urls s) →
  NoDup (failed_urls
           (download_songs ydl songs_to_download youtube_dl_opts s).2).
Proof.
  intros Hnd. unfold download_songs.
  unfold bind at 1, modify at 1. unfold bind at 1, modify at 1.
  unfold bind at 1.
  set (s0 := set_ydl_calls _ _).
  assert (NoDup (failed_urls s0)) as Hnd0 by done.
  pose proof (for_each_preserves (λ s, NoDup (failed_urls s))
    (λ d, for_each (opt_progress_hooks youtube_dl_opts)
            (λ h, call_hook h d))
    (ydl songs_to_download youtube_dl_opts)) as Hloop.
  simpl in Hloop. specialize (λ H, Hloop H s0 Hnd0).
  destruct (for_each _ _ s0) as [[[]|e] s1]; simpl in *.
  - unfold_m.
    destruct (global_progress_bar s1); simpl; apply Hloop; clear Hloop.
    all: intros d s2 Hs2;
      apply (for_each_preserves (λ s, NoDup (failed_urls s))); [|done];
      intros [] s3 Hs3; simpl;
      destruct (progress_hook_failed_urls d s3) as [-> | ->];
      [done|by apply record_failure_NoDup].
  - apply Hloop. intros d s2 Hs2.
    apply (for_each_preserves (λ s, NoDup (failed_urls s))); [|done].
    intros [] s3 Hs3. simpl.
    destruct (progress_hook_failed_urls d s3) as [-> | ->];
      [done|by apply record_failure_NoDup].
Qed.

Lemma failed_urls_no_duplicates_witness :
  NoDup (failed_urls Sample.pass_state) ∧
  NoDup (failed_urls
           (download_songs Sample.ydl [video_url "id2"; video_url "id3"]
              (create_youtube_dl_options (getenv_config Sample.env) false)
              Sample.pass_state).2).
Proof.
  assert (NoDup (failed_urls Sample.pass_state)) as H by apply NoDup_nil_2.
  split; [exact H|].
  exact (failed_urls_no_duplicates Sample.ydl
           [video_url "id2"; video_url "id3"]
           (create_youtube_dl_options (getenv_config Sample.env) false)
           Sample.pass_state H).
Defined.

Example repeated_error_recorded_once :
  failed_urls
    (download_songs Sample.ydl [video_url "id2"]
       (create_youtube_dl_options (getenv_config Sample.env) false)
       Sample.pass_state).2
  = [video_url "id2"].
Proof. vm_compute. reflexivity. Qed.

(* ===================================================================== *)
(** * A download pass *)
(* ===================================================================== *)

Lemma hooks_singleton d s :
  for_each [progress_hook_ref] (λ h, call_hook h d) s = progress_hook d s.
Proof.
  unfold for_each, for_in, bind, call_hook, ret.
  by destruct (progress_hook d s) as [[[]|e] s'].
Qed.

Lemma hooks_of_options config use_cookies :
  opt_progress_hooks (create_youtube_dl_options config use_cookies)
  = [progress_hook_ref].
Proof.
  unfold create_youtube_dl_options.
  by destruct (use_cookies && Py.truthy (cookies_filepath config)).
Qed.

Lemma count_terminal_cons d events :
  count_terminal (d :: events)
  = (if is_terminal d then 1 else 0) + count_terminal events.
Proof.
  unfold count_terminal, len. simpl. destruct (is_terminal d); simpl; lia.
Qed.

(** The events of a pass, one after the other. *)
Lemma pass_events events : ∀ s g p,
  global_progress_bar s = Some g →
  Tqdm.disable g = false →
  PLAYLIST_FILEPATH s = Some p →
  ∃ s' g',
    for_each events
      (λ d, for_each [progress_hook_ref] (λ h, call_hook h d)) s
      = (Ok (), s') ∧
    global_progress_bar s' = Some g' ∧
    Tqdm.disable g' = false ∧
    Tqdm.total g' = Tqdm.total g ∧
    Tqdm.n g' = Tqdm.n g + count_terminal events ∧
    PLAYLIST_FILEPATH s' = Some p ∧
    ydl_calls s' = ydl_calls s ∧
    failed_urls s' = record_failures events (failed_urls s).
Proof.
  induction events as [|d events IH]; intros s g p Hg Hd Hp.
  - exists s, g. unfold count_terminal, len. simpl. rewrite Z.add_0_r. done.
  - destruct (progress_hook_step d s g p Hg Hd Hp)
      as (s1 & g1 & Hrun & Hg1 & Hd1 & Ht1 & Hn1 & Hp1 & Hc1 & Hf1).
    destruct (IH s1 g1 p Hg1 Hd1 Hp1)
      as (s2 & g2 & Hrun2 & Hg2 & Hd2 & Ht2 & Hn2 & Hp2 & Hc2 & Hf2).
    exists s2, g2. split.
    { rewrite for_each_cons, hooks_singleton, Hrun. exact Hrun2. }
    rewrite count_terminal_cons. simpl.
    repeat split; try done; try congruence; try lia.
Qed.

(** A whole pass with the options of [create_youtube_dl_options]. *)
Lemma download_songs_run ydl songs config use_cookies s p :
  PLAYLIST_FILEPATH s = Some p →
  let opts := create_youtube_dl_options config use_cookies in
  ∃ s' g',
    download_songs ydl songs opts s = (Ok (), s') ∧
    global_progress_bar s' = Some g' ∧
    Tqdm.total g' = len songs ∧
    Tqdm.n g' = count_terminal (ydl songs opts) ∧
    PLAYLIST_FILEPATH s' = Some p ∧
    ydl_calls s' = ydl_calls s ++ [(songs, opts)] ∧
    failed_urls s' = record_failures (ydl songs opts) (failed_urls s).
Proof.
  intros Hp opts. unfold download_songs.
  assert (opt_progress_hooks opts = [progress_hook_ref]) as ->
    by apply hooks_of_options.
  unfold bind at 1. unfold modify at 1. unfold bind at 1. unfold modify at 1.
  unfold bind at 1.
  set (s0 := set_ydl_calls _ _).
  destruct (pass_events (ydl songs opts) s0
              (Tqdm.new (len songs) "song" "Overall Progress") p)
    as (s1 & g1 & Hrun & Hg1 & Hd1 & Ht1 & Hn1 & Hp1 & Hc1 & Hf1);
    [done..|].
  rewrite Hrun. unfold_m. rewrite Hg1. simpl.
  eexists _, _. split; [reflexivity|]. simpl.
  repeat split; try done.
Qed.

(** C2. A pass over a queue of [n] URLs, run with the options the program
    builds and the playlist path set as [main] sets it: if the events the
    engine delivers hold exactly [n] terminal events (one "finished" or
    "error" event per submitted URL), the pass returns and the counter of
    the aggregate bar, created with total [n], ends at exactly [n], in
    whatever order and proportion the events finish or fail. *)
Theorem aggregate_counter_equals_submitted
    ydl songs_to_download config use_cookies s p :
  let opts := create_youtube_dl_options config use_cookies in
  PLAYLIST_FILEPATH s = Some p →
  count_terminal (ydl songs_to_download opts) = len songs_to_download →
  ∃ s' g,
    download_songs ydl songs_to_download opts s = (Ok (), s') ∧
    global_progress_bar s' = Some g ∧
    Tqdm.total g = len songs_to_download ∧
    Tqdm.n g = len songs_to_download.
Proof.
  intros opts Hp Hcount.
  destruct (download_songs_run ydl songs_to_download config use_cookies s p Hp)
    as (s' & g & Hrun & Hg & Htotal & Hn & _).
  exists s', g. fold opts in Hrun, Hn.
  split; [exact Hrun|]. split; [exact Hg|]. split; [exact Htotal|].
  by rewrite Hn, Hcount.
Qed.

Lemma aggregate_counter_witness :
  PLAYLIST_FILEPATH Sample.pass_state = Some "/srv/music/liked.m3u" ∧
  count_terminal
    (Sample.ydl [video_url "id2"; video_url "id3"]
       (create_youtube_dl_options (getenv_config Sample.env) true))
  = len [video_url "id2"; video_url "id3"] ∧
  ∃ s' g,
    download_songs Sample.ydl [video_url "id2"; video_url "id3"]
      (create_youtube_dl_options (getenv_config Sample.env) true)
      Sample.pass_state = (Ok (), s') ∧
    global_progress_bar s' = Some g ∧
    Tqdm.total g = len [video_url "id2"; video_url "id3"] ∧
    Tqdm.n g = len [video_url "id2"; video_url "id3"].
Proof.
  assert (PLAYLIST_FILEPATH Sample.pass_state = Some "/srv/music/liked.m3u")
    as Hp by reflexivity.
  assert (count_terminal
            (Sample.ydl [video_url "id2"; video_url "id3"]
               (create_youtube_dl_options (getenv_config Sample.env) true))
          = len [video_url "id2"; video_url "id3"])
    as Hc by (vm_compute; reflexivity).
  split; [exact Hp|]. split; [exact Hc|].
  exact (aggregate_counter_equals_submitted Sample.ydl
           [video_url "id2"; video_url "id3"] (getenv_config Sample.env) true
           Sample.pass_state "/srv/music/liked.m3u" Hp Hc).
Defined.

(** The counter counts terminal events, whatever their number. *)
Example counter_counts_every_terminal_event :
  Tqdm.n <$> global_progress_bar
    (download_songs Sample.ydl [video_url "id2"]
       (create_youtube_dl_options (getenv_config Sample.env) false)
       Sample.pass_state).2
  = Some 2.
Proof. vm_compute. reflexivity. Qed.

(* ===================================================================== *)
(** * The per-item tracker *)
(* ===================================================================== *)

(** C6, as the program has it. A "downloading" event that arrives while a
    per-item tracker is active (stored and not closed) makes the hook
    return with the tracker advanced by the difference between the
    reported cumulative byte count, taken as 0 when the event omits the
    field, and the tracker's position; nothing else changes. The position
    therefore becomes the reported count: it does not decrease when the
    reported count is at least the last position, and it goes back to the
    reported count otherwise. *)
Theorem tracker_follows_reported_bytes d s b :
  ev_status d = Some "downloading" →
  individual_progress_bar s = Some b →
  Tqdm.disable b = false →
  let reported := default 0 (ev_downloaded_bytes d) in
  ∃ b',
    progress_hook d s = (Ok (), set_individual_progress_bar (Some b') s) ∧
    Tqdm.n b' = Tqdm.n b + (reported - Tqdm.n b) ∧
    Tqdm.n b' = reported ∧
    (Tqdm.n b ≤ reported ↔ Tqdm.n b ≤ Tqdm.n b').
Proof.
  intros Hst Hb Hopen reported.
  exists (Tqdm.update (reported - Tqdm.n b) b).
  assert (Tqdm.n (Tqdm.update (reported - Tqdm.n b) b)
          = Tqdm.n b + (reported - Tqdm.n b)) as Hn
    by (unfold Tqdm.update; rewrite Hopen; reflexivity).
  split.
  - unfold progress_hook. rewrite Hst. simpl.
    unfold bind, gets, modify. rewrite Hb. reflexivity.
  - rewrite Hn. split; [reflexivity|]. split; lia.
Qed.

Lemma tracker_follows_witness :
  ev_status Sample.no_bytes = Some "downloading" ∧
  individual_progress_bar Sample.tracking_state
  = Some {| Tqdm.total := 500; Tqdm.n := 100;
            Tqdm.desc := "Downloading: Two"; Tqdm.unit := "B";
            Tqdm.disable := false |} ∧
  ∃ b',
    progress_hook Sample.no_bytes Sample.tracking_state
      = (Ok (), set_individual_progress_bar (Some b') Sample.tracking_state) ∧
    Tqdm.n b' = 100 + (0 - 100) ∧
    Tqdm.n b' = 0 ∧
    (100 ≤ 0 ↔ 100 ≤ Tqdm.n b').
Proof.
  split; [reflexivity|]. split; [vm_compute; reflexivity|].
  exact (tracker_follows_reported_bytes Sample.no_bytes Sample.tracking_state
           {| Tqdm.total := 500; Tqdm.n := 100;
              Tqdm.desc := "Downloading: Two"; Tqdm.unit := "B";
              Tqdm.disable := false |}
           eq_refl eq_refl eq_refl).
Defined.

(** C6 fails as stated. After a first "downloading" event and a second
    one reporting 100 bytes the tracker shows 100; a "downloading" event
    without the cumulative-bytes field then brings it back to 0. *)
Lemma tracker_regresses_without_bytes :
  Tqdm.n <$> individual_progress_bar Sample.tracking_state = Some 100 ∧
  ev_status Sample.no_bytes = Some "downloading" ∧
  ev_downloaded_bytes Sample.no_bytes = None ∧
  Tqdm.n <$> individual_progress_bar
               (progress_hook Sample.no_bytes Sample.tracking_state).2
  = Some 0 ∧
  ¬ tracker_never_regresses.
Proof.
  split; [vm_compute; reflexivity|].
  split; [reflexivity|]. split; [reflexivity|].
  split; [vm_compute; reflexivity|].
  intros Hclaim.
  destruct (Hclaim Sample.no_bytes Sample.tracking_state
              {| Tqdm.total := 500; Tqdm.n := 100;
                 Tqdm.desc := "Downloading: Two"; Tqdm.unit := "B";
                 Tqdm.disable := false |})
    as (b' & Hb' & Hle); [reflexivity|vm_compute; reflexivity|reflexivity|].
  vm_compute in Hb'. injection Hb' as <-. simpl in Hle. lia.
Qed.

(* ===================================================================== *)
(** * The playlist file *)
(* ===================================================================== *)

(** A "finished" event in a pass, with the entry as the hook computes
    it. *)
Lemma progress_hook_finished d s g p :
  ev_status d = Some "finished" →
  global_progress_bar s = Some g →
  PLAYLIST_FILEPATH s = Some p →
  ∃ s',
    progress_hook d s = (Ok (), s') ∧
    files s' !! p
    = Some (default "" (files s !! p)
            +:+ "/srv/music/" +:+ Path.stem (default "" (ev_filename d))
            +:+ ".mp3" +:+ Py.newline) ∧
    (∀ q, q ≠ p → files s' !! q = files s !! q).
Proof.
  intros Hst Hg Hp.
  assert (∀ x y z, x +:+ (y +:+ z) +:+ Py.newline
                   = x +:+ y +:+ z +:+ Py.newline) as Hassoc.
  { intros x y z. by rewrite (string_app_assoc y z). }
  unfold progress_hook. rewrite Hst. simpl. unfold_m. unfold append_to_file.
  destruct (individual_progress_bar s) as [b|]; [destruct (Tqdm.bool b)|];
    simpl; rewrite Hg; simpl; rewrite Hp; simpl.
  all: eexists; (split; [reflexivity|]); simpl.
  all: split; [by rewrite lookup_insert_eq, Hassoc|].
  all: intros q Hq; by rewrite lookup_insert_ne.
Qed.

(** C7, as the program has it. A "finished" event, in a pass (the
    aggregate bar exists and the playlist path is set), makes the hook
    return after appending one entry to the playlist file:
    [/srv/music/], the stem of the reported file path, [.mp3] and a
    newline. The stem is the base name of the path (its last piece
    between slashes that is neither empty nor [.]; the path is empty
    when the event has no file name) without its extension (what
    follows the last dot, when there is something on both sides of that
    dot). The entry has one newline more than the
    stem: it is a single line exactly when the stem holds no newline.
    The former content of the file is kept in front of the entry (an
    absent file counts as empty), and the hook changes no other file. *)
Theorem finished_appends_playlist_line d s g p :
  ev_status d = Some "finished" →
  global_progress_bar s = Some g →
  PLAYLIST_FILEPATH s = Some p →
  ∃ s' name stem,
    progress_hook d s = (Ok (), s') ∧
    base_name (default "" (ev_filename d)) name ∧
    without_extension name stem ∧
    files s' !! p
    = Some (default "" (files s !! p)
            +:+ "/srv/music/" +:+ stem +:+ ".mp3" +:+ Py.newline) ∧
    count_newlines ("/srv/music/" +:+ stem +:+ ".mp3" +:+ Py.newline)
    = S (count_newlines stem) ∧
    (∀ q, q ≠ p → files s' !! q = files s !! q).
Proof.
  intros Hst Hg Hp.
  destruct (progress_hook_finished d s g p Hst Hg Hp)
    as (s' & Hrun & Hfile & Hframe).
  exists s', (Path.name (default "" (ev_filename d))),
    (Path.stem (default "" (ev_filename d))).
  split; [done|].
  split; [apply base_name_of_path|].
  split; [apply without_extension_of_name|].
  split; [done|].
  split; [apply count_newlines_entry|done].
Qed.

Lemma finished_appends_witness :
  ev_status Sample.finished = Some "finished" ∧
  ∃ s' name stem,
    progress_hook Sample.finished Sample.pass_state = (Ok (), s') ∧
    base_name (default "" (ev_filename Sample.finished)) name ∧
    without_extension name stem ∧
    files s' !! "/srv/music/liked.m3u"
    = Some (default "" (files Sample.pass_state !! "/srv/music/liked.m3u")
            +:+ "/srv/music/" +:+ stem +:+ ".mp3" +:+ Py.newline) ∧
    count_newlines ("/srv/music/" +:+ stem +:+ ".mp3" +:+ Py.newline)
    = S (count_newlines stem) ∧
    (∀ q, q ≠ "/srv/music/liked.m3u" →
          files s' !! q = files Sample.pass_state !! q).
Proof.
  split; [reflexivity|].
  exact (finished_appends_playlist_line Sample.finished Sample.pass_state
           (Tqdm.new 1 "song" "Overall Progress") "/srv/music/liked.m3u"
           eq_refl eq_refl eq_refl).
Defined.

(** C7 fails as stated. The entry is not always one line: for a file
    whose name holds a newline the hook adds two lines to the playlist
    file. *)
Lemma finished_entry_spans_two_lines :
  ev_status Sample.finished_two_lines = Some "finished" ∧
  files (progress_hook Sample.finished_two_lines Sample.pass_state).2
    !! "/srv/music/liked.m3u"
  = Some ("/srv/music/Two" +:+ Py.newline +:+ "Part [id2].mp3"
          +:+ Py.newline) ∧
  count_newlines ("/srv/music/Two" +:+ Py.newline +:+ "Part [id2].mp3"
                  +:+ Py.newline) = 2%nat ∧
  ¬ one_line_per_finished_event.
Proof.
  assert (files (progress_hook Sample.finished_two_lines Sample.pass_state).2
            !! "/srv/music/liked.m3u"
          = Some (("/srv/music/Two" +:+ Py.newline +:+ "Part [id2].mp3")
                  +:+ Py.newline)) as Hfile
    by (vm_compute; reflexivity).
  split; [reflexivity|]. split; [vm_compute; reflexivity|].
  split; [reflexivity|].
  intros Hone.
  destruct (Hone Sample.finished_two_lines Sample.pass_state
              (Tqdm.new 1 "song" "Overall Progress") "/srv/music/liked.m3u"
              eq_refl eq_refl eq_refl) as (line & Hline & Hfile').
  rewrite Hfile in Hfile'. injection Hfile' as Heq.
  change (default "" (files Sample.pass_state !! "/srv/music/liked.m3u"))
    with "" in Heq.
  rewrite string_app_nil_l in Heq.
  apply string_app_inj_r in Heq. subst line.
  discriminate Hline.
Qed.

Example playlist_after_one_finished_event :
  files (progress_hook Sample.finished Sample.pass_state).2
    !! "/srv/music/liked.m3u"
  = Some ("/srv/music/Two [id2].mp3" +:+ Py.newline).
Proof. vm_compute. reflexivity. Qed.

(* ===================================================================== *)
(** * Events with missing fields *)
(* ===================================================================== *)

(** The hook reads a missing field as its default. *)
Lemma progress_hook_defaults d s :
  progress_hook d s = progress_hook (with_defaults d) s.
Proof.
  destruct d as [st tb tbe db info fn er].
  unfold progress_hook, with_defaults, info_get, info_lookup. simpl.
  destruct (bool_decide (st = Some "downloading")) eqn:E1.
  { unfold_m. destruct (individual_progress_bar s) as [b|]; simpl.
    - by destruct db.
    - destruct info as [[[t|] u]|], tb as [x|], tbe as [y|]; simpl;
        unfold Py.or_int; simpl; repeat case_bool_decide; done. }
  destruct (bool_decide (st = Some "finished")) eqn:E2.
  { by destruct info as [[[t|] u]|], fn. }
  destruct (bool_decide (st = Some "error")) eqn:E3; [|done].
  by destruct info as [[t u]|], er.
Qed.

(** C8. In a pass (the aggregate bar exists and the playlist path is set)
    the hook raises on no event, whichever of the fields of the event are
    missing: status, byte counts, information dict, title, source URL,
    file name, error message. A missing field is read as its default: a
    byte count as 0, the file name as the empty path, the error message as
    ["Unknown error"], the title as ["Unknown Title"] (as
    ["Downloading"] in the label of a tracker that a "downloading" event
    opens); an event without status changes nothing. *)
Theorem progress_hook_never_raises d s :
  is_Some (global_progress_bar s) →
  is_Some (PLAYLIST_FILEPATH s) →
  (progress_hook d s).1 = Ok () ∧
  progress_hook d s = progress_hook (with_defaults d) s ∧
  (ev_status d = None → progress_hook d s = (Ok (), s)).
Proof.
  intros [g Hg] [p Hp]. split; [|split].
  - unfold progress_hook.
    destruct (bool_decide (ev_status d = Some "downloading")).
    { unfold_m. by destruct (individual_progress_bar s). }
    destruct (bool_decide (ev_status d = Some "finished")).
    { unfold_m.
      destruct (individual_progress_bar s) as [b|];
        [destruct (Tqdm.bool b)|];
        simpl; rewrite Hg; simpl; rewrite Hp; reflexivity. }
    destruct (bool_decide (ev_status d = Some "error")); [|done].
    unfold_m.
    destruct (individual_progress_bar s) as [b|]; [destruct (Tqdm.bool b)|];
      simpl;
      destruct (Py.truthy _ && _); simpl; rewrite Hg; reflexivity.
  - apply progress_hook_defaults.
  - intros Hst. unfold progress_hook. rewrite Hst. reflexivity.
Qed.

Lemma progress_hook_never_raises_witness :
  is_Some (global_progress_bar Sample.pass_state) ∧
  is_Some (PLAYLIST_FILEPATH Sample.pass_state) ∧
  (progress_hook (Event (Some "finished") None None None None None None)
     Sample.pass_state).1 = Ok () ∧
  progress_hook (Event (Some "finished") None None None None None None)
    Sample.pass_state
  = progress_hook
      (with_defaults (Event (Some "finished") None None None None None None))
      Sample.pass_state ∧
  (ev_status (Event (Some "finished") None None None None None None) = None →
   progress_hook (Event (Some "finished") None None None None None None)
     Sample.pass_state
   = (Ok (), Sample.pass_state)).
Proof.
  assert (is_Some (global_progress_bar Sample.pass_state)) as Hg
    by (eexists; reflexivity).
  assert (is_Some (PLAYLIST_FILEPATH Sample.pass_state)) as Hp
    by (eexists; reflexivity).
  split; [exact Hg|]. split; [exact Hp|].
  exact (progress_hook_never_raises
           (Event (Some "finished") None None None None None None)
           Sample.pass_state Hg Hp).
Defined.

(** A "finished" event with nothing but its status: the title is
    ["Unknown Title"] and the playlist entry is [/srv/music/.mp3]. *)
Example finished_event_with_no_field :
  let s' :=
    (progress_hook (Event (Some "finished") None None None None None None)
       Sample.pass_state).2 in
  out s' = [TqdmWrite (MsgAdded "Unknown Title");
            TqdmWrite (MsgFinished "Unknown Title")] ∧
  files s' !! "/srv/music/liked.m3u"
  = Some ("/srv/music/.mp3" +:+ Py.newline).
Proof. vm_compute. split; reflexivity. Qed.

(** Outside a pass the aggregate bar is [None] and a terminal event
    raises. *)
Example terminal_event_outside_a_pass :
  (progress_hook Sample.finished (initial_state ∅)).1 = Raise AttributeError.
Proof. reflexivity. Qed.

(* ===================================================================== *)
(** * Errors without a source URL *)
(* ===================================================================== *)

(** C9. An "error" event whose payload gives no source URL (no
    information dict, or one without ["webpage_url"]), in a pass (the
    aggregate bar is open): the hook returns, the aggregate counter grows
    by 1, and the failed URLs are unchanged. The event reports no failure:
    wherever it stands among the events of a pass, the failures of the
    pass, from which the retry list and the final report are taken, are
    those of the pass without it. *)
Theorem error_without_url_counts_but_is_not_recorded d s g :
  ev_status d = Some "error" →
  info_lookup d info_webpage_url = None →
  global_progress_bar s = Some g →
  Tqdm.disable g = false →
  ∃ s' g',
    progress_hook d s = (Ok (), s') ∧
    global_progress_bar s' = Some g' ∧
    Tqdm.n g' = Tqdm.n g + 1 ∧
    failed_urls s' = failed_urls s ∧
    reported_failure d = None ∧
    (∀ before after,
       pass_failures (before ++ d :: after) = pass_failures (before ++ after)).
Proof.
  intros Hst Hurl Hg Hopen.
  assert (reported_failure d = None) as Hrep.
  { unfold reported_failure. rewrite Hurl. by case_bool_decide. }
  unfold progress_hook. rewrite Hst. simpl. unfold_m. rewrite Hurl. simpl.
  destruct (individual_progress_bar s) as [b|]; [destruct (Tqdm.bool b)|];
    simpl; rewrite Hg; simpl; unfold Tqdm.update; rewrite Hopen.
  all: eexists _, _; (split; [reflexivity|]); simpl.
  all: split; [reflexivity|]; split; [reflexivity|]; split; [reflexivity|].
  all: split; [exact Hrep|].
  all: intros before after; unfold pass_failures;
    rewrite !omap_app; simpl; by rewrite Hrep.
Qed.

Lemma error_without_url_witness :
  ev_status (Sample.error None) = Some "error" ∧
  info_lookup (Sample.error None) info_webpage_url = None ∧
  ∃ s' g',
    progress_hook (Sample.error None) Sample.pass_state = (Ok (), s') ∧
    global_progress_bar s' = Some g' ∧
    Tqdm.n g' = Tqdm.n (Tqdm.new 1 "song" "Overall Progress") + 1 ∧
    failed_urls s' = failed_urls Sample.pass_state ∧
    reported_failure (Sample.error None) = None ∧
    (∀ before after,
       pass_failures (before ++ Sample.error None :: after)
       = pass_failures (before ++ after)).
Proof.
  split; [reflexivity|]. split; [reflexivity|].
  exact (error_without_url_counts_but_is_not_recorded (Sample.error None)
           Sample.pass_state (Tqdm.new 1 "song" "Overall Progress")
           eq_refl eq_refl eq_refl eq_refl).
Defined.

(* ===================================================================== *)
(** * The whole run *)
(* ===================================================================== *)

Lemma load_configuration_run environ s :
  load_configuration environ s =
    match config_missing (getenv_config environ) with
    | [] => (Ok (getenv_config environ), s)
    | m =>
        (Raise (ValueError
           "Configuration incomplete. Please set the missing environment variables."),
         set_out (out s ++ [Log ERROR (MsgMissingEnv m)]) s)
    end.
Proof.
  unfold load_configuration.
  fold (getenv_config environ). fold (config_missing (getenv_config environ)).
  by destruct (config_missing (getenv_config environ)).
Qed.

Lemma config_complete_playlist c :
  config_missing c = [] → ∃ p, playlist_filepath c = Some p.
Proof.
  destruct c as [a b c0 d e [p|] g]; [eauto|].
  unfold config_missing, config_items. simpl.
  intros H. exfalso.
  destruct a, b, c0, d, e, g; vm_compute in H; discriminate.
Qed.

(** A run with an incomplete configuration exits with code 1 before any
    download. *)
Lemma main_config_error w disk :
  config_missing (world_config w) ≠ [] →
  ∃ s, run_main w disk = (Raise (SystemExit 1), s) ∧
       ydl_calls s = [] ∧ files s = disk.
Proof.
  intros Hm. unfold run_main, main.
  mstep. mstep. unfold try_except_ValueError. rewrite load_configuration_run.
  fold (world_config w).
  destruct (config_missing (world_config w)) as [|k m]; [done|].
  unfold_m. simpl. eauto.
Qed.

(** A run with a complete configuration and an empty queue. *)
Lemma main_empty_queue w disk :
  config_missing (world_config w) = [] →
  world_queue w = [] →
  ∃ s, run_main w disk = (Raise (SystemExit 0), s) ∧
       ydl_calls s = [] ∧ files s = disk ∧ global_progress_bar s = None.
Proof.
  intros Hm Hq. unfold run_main, main.
  mstep. mstep. unfold try_except_ValueError. rewrite load_configuration_run.
  fold (world_config w). rewrite Hm.
  do 4 mstep.
  unfold get_already_downloaded. do 3 mstep.
  unfold bind at 1. rewrite build_download_queue_run.
  unfold Py.get. fold (world_queue w). rewrite Hq. simpl.
  unfold_m. simpl. eauto.
Qed.

(** A run with a complete configuration and a non-empty queue: the first
    pass, then either the reports, or the retry pass and its report. *)
Lemma main_passes w disk :
  let config := world_config w in
  let queue := world_queue w in
  let opts1 := create_youtube_dl_options config false in
  let opts2 := create_youtube_dl_options config true in
  config_missing config = [] →
  queue ≠ [] →
  ∃ s0 s1,
    failed_urls s0 = [] ∧ ydl_calls s0 = [] ∧
    download_songs (ydl_events w) queue opts1 s0 = (Ok (), s1) ∧
    ydl_calls s1 = [(queue, opts1)] ∧
    failed_urls s1 = record_failures (ydl_events w queue opts1) [] ∧
    if retry_condition config (failed_urls s1) then
      ∃ s2 s3,
        failed_urls s2 = [] ∧ ydl_calls s2 = ydl_calls s1 ∧
        download_songs (ydl_events w) (failed_urls s1) opts2 s2
          = (Ok (), s3) ∧
        ydl_calls s3 = [(queue, opts1); (failed_urls s1, opts2)] ∧
        failed_urls s3
        = record_failures (ydl_events w (failed_urls s1) opts2) [] ∧
        run_main w disk =
          (Ok (), set_out (out s3 ++ [retry_report (failed_urls s3);
                                      Log INFO MsgAllCompleted]) s3)
    else
      run_main w disk =
        (Ok (), set_out (out s1 ++ [Log INFO MsgFirstCompleted]
                           ++ first_report (failed_urls s1)
                           ++ [Log INFO MsgAllCompleted]) s1).
Proof.
  intros config queue opts1 opts2 Hm Hq.
  destruct (config_complete_playlist config Hm) as [p Hp].
  remember (run_main w disk) as R eqn:HR.
  unfold run_main, main in HR.
  mstep in HR. mstep in HR.
  unfold try_except_ValueError in HR. rewrite load_configuration_run in HR.
  fold (world_config w) in HR. fold config in HR. rewrite Hm in HR.
  do 4 mstep in HR.
  unfold get_already_downloaded in HR. do 3 mstep in HR.
  unfold bind at 1 in HR. rewrite build_download_queue_run in HR.
  unfold Py.get in HR. fold (world_queue w) in HR. fold queue in HR.
  mstep in HR. rewrite bool_decide_eq_false_2 in HR by done.
  mstep in HR.
  match type of HR with context [download_songs _ queue _ ?s] =>
    set (s0 := s) in HR end.
  destruct (download_songs_run (ydl_events w) queue config false s0 p)
    as (s1 & g1 & Hrun1 & _ & _ & _ & Hp1 & Hc1 & Hf1); [done|].
  exists s0, s1. split; [done|]. split; [done|]. split; [done|].
  split; [done|]. split; [done|].
  unfold bind at 1 in HR. rewrite Hrun1 in HR.
  mstep in HR. unfold retry_condition.
  change (cookies_filepath config) with (environ w !! "COOKIES_FILEPATH").
  destruct (negb (bool_decide (failed_urls s1 = []))
            && Py.truthy (environ w !! "COOKIES_FILEPATH")) eqn:Hretry.
  - mstep in HR. mstep in HR. unfold bind at 1 in HR.
    match type of HR with context [download_songs _ (failed_urls s1) _ ?s] =>
      set (s2 := s) in HR end.
    destruct (download_songs_run (ydl_events w) (failed_urls s1) config true
                s2 p)
      as (s3 & g3 & Hrun3 & _ & _ & _ & Hp3 & Hc3 & Hf3); [done|].
    exists s2, s3. split; [done|]. split; [done|]. split; [done|].
    split; [by rewrite Hc3; simpl; rewrite Hc1|]. split; [done|].
    rewrite Hrun3 in HR. rewrite HR.
    unfold retry_report. unfold_m. simpl.
    destruct (bool_decide (failed_urls s3 = [])); simpl;
      by rewrite <- app_assoc.
  - rewrite HR. unfold first_report.
    destruct (bool_decide (failed_urls s1 = [])); simpl; unfold_m; simpl;
      by rewrite <- ?app_assoc.
Qed.

Lemma cookies_configured_truthy c :
  cookies_configured c ↔ Py.truthy (cookies_filepath c) = true.
Proof.
  unfold cookies_configured, Py.truthy.
  destruct (cookies_filepath c) as [path|].
  - rewrite negb_true_iff, bool_decide_eq_false. split.
    + by intros (path' & [= <-] & Hne).
    + intros Hne. by exists path.
  - split; [by intros (path & [=] & _)|done].
Qed.

Lemma retry_condition_spec c failed :
  retry_condition c failed = true ↔ failed ≠ [] ∧ cookies_configured c.
Proof.
  unfold retry_condition.
  rewrite andb_true_iff, negb_true_iff, bool_decide_eq_false.
  by rewrite cookies_configured_truthy.
Qed.

Lemma cookiefile_of_options c :
  opt_cookiefile (create_youtube_dl_options c true)
  = if Py.truthy (cookies_filepath c) then cookies_filepath c else None.
Proof.
  unfold create_youtube_dl_options. simpl.
  by destruct (Py.truthy (cookies_filepath c)).
Qed.

(** C10. When the configuration is complete and the queue that
    [build_download_queue] returns is empty, the run ends at once with
    [sys.exit(0)]: the exit code is 0, the last line logged is that there
    are no new songs, the download engine was never invoked, no aggregate
    bar was created and no file was touched. *)
Theorem empty_queue_exits_without_download w disk :
  config_missing (world_config w) = [] →
  (build_download_queue (default [] (api_tracks w)) (folder_mp3 w)
     (initial_state disk)).1 = Ok [] →
  ∃ s front,
    run_main w disk = (Raise (SystemExit 0), s) ∧
    exit_code (run_main w disk).1 = 0 ∧
    ydl_calls s = [] ∧
    global_progress_bar s = None ∧
    files s = disk ∧
    out s = front ++ [Log INFO MsgNoNewSongs].
Proof.
  intros Hm Hq. rewrite build_download_queue_run in Hq. simpl in Hq.
  injection Hq as Hq.
  assert (∃ s front,
            run_main w disk = (Raise (SystemExit 0), s) ∧
            ydl_calls s = [] ∧ global_progress_bar s = None ∧
            files s = disk ∧ out s = front ++ [Log INFO MsgNoNewSongs])
    as (s & front & Hrun & Hcalls & Hbar & Hfiles & Hout).
  { unfold run_main, main.
    mstep. mstep. unfold try_except_ValueError.
    rewrite load_configuration_run.
    fold (world_config w). rewrite Hm.
    do 4 mstep.
    unfold get_already_downloaded. do 3 mstep.
    unfold bind at 1. rewrite build_download_queue_run.
    unfold Py.get. rewrite Hq. simpl.
    unfold_m. simpl.
    eexists _, _. split; [reflexivity|]. simpl.
    repeat split. rewrite !app_comm_cons. reflexivity. }
  exists s, front. rewrite Hrun. simpl. done.
Qed.

Lemma empty_queue_witness :
  config_missing (world_config Sample.w_synced) = [] ∧
  (build_download_queue (default [] (api_tracks Sample.w_synced))
     (folder_mp3 Sample.w_synced) (initial_state ∅)).1 = Ok [] ∧
  ∃ s front,
    run_main Sample.w_synced ∅ = (Raise (SystemExit 0), s) ∧
    exit_code (run_main Sample.w_synced ∅).1 = 0 ∧
    ydl_calls s = [] ∧
    global_progress_bar s = None ∧
    files s = ∅ ∧
    out s = front ++ [Log INFO MsgNoNewSongs].
Proof.
  assert (config_missing (world_config Sample.w_synced) = []) as Hm
    by (vm_compute; reflexivity).
  assert ((build_download_queue (default [] (api_tracks Sample.w_synced))
             (folder_mp3 Sample.w_synced) (initial_state ∅)).1 = Ok [])
    as Hq by (vm_compute; reflexivity).
  split; [exact Hm|]. split; [exact Hq|].
  exact (empty_queue_exits_without_download Sample.w_synced ∅ Hm Hq).
Defined.

(** C3. In a run that reaches the first pass (complete configuration,
    non-empty queue), the first pass returns, and a second invocation of
    the download engine happens if and only if the failed URLs after the
    first pass (the failures its events report, recorded from an empty
    list) are non-empty and a cookies file is configured (the setting is a
    non-empty path). The first pass runs without cookie file. When the
    second pass happens, it is the only other one; it is given exactly the
    failed URLs of the first pass and options whose cookie file is the
    configured one; it starts from a state whose failed URLs are empty;
    and the run ends in the state the second pass leaves, up to the lines
    logged after it. There are never more than two invocations. *)
Theorem retry_pass_iff w disk :
  let config := world_config w in
  let queue := world_queue w in
  let opts1 := create_youtube_dl_options config false in
  let opts2 := create_youtube_dl_options config true in
  let final := (run_main w disk).2 in
  config_missing config = [] →
  queue ≠ [] →
  ∃ s0 s1,
    failed_urls s0 = [] ∧ ydl_calls s0 = [] ∧
    download_songs (ydl_events w) queue opts1 s0 = (Ok (), s1) ∧
    failed_urls s1 = record_failures (ydl_events w queue opts1) [] ∧
    opt_cookiefile opts1 = None ∧
    (length (ydl_calls final) = 2%nat ↔
     failed_urls s1 ≠ [] ∧ cookies_configured config) ∧
    (length (ydl_calls final) ≠ 2%nat →
     ydl_calls final = [(queue, opts1)]) ∧
    (length (ydl_calls final) = 2%nat →
     ∃ s2 s3,
       failed_urls s2 = [] ∧
       download_songs (ydl_events w) (failed_urls s1) opts2 s2
         = (Ok (), s3) ∧
       final = set_out (out final) s3 ∧
       ydl_calls final = [(queue, opts1); (failed_urls s1, opts2)] ∧
       opt_cookiefile opts2 = cookies_filepath config ∧
       is_Some (opt_cookiefile opts2)) ∧
    (length (ydl_calls final) ≤ 2)%nat.
Proof.
  intros config queue opts1 opts2 final Hm Hq.
  destruct (main_passes w disk Hm Hq)
    as (s0 & s1 & Hf0 & Hc0 & Hrun1 & Hc1 & Hf1 & Hrest).
  fold config queue opts1 opts2 in Hrun1, Hc1, Hf1, Hrest.
  exists s0, s1. split; [done|]. split; [done|]. split; [done|].
  split; [done|]. split; [reflexivity|].
  destruct (retry_condition config (failed_urls s1)) eqn:Hretry.
  - destruct Hrest as (s2 & s3 & Hf2 & Hc2 & Hrun3 & Hc3 & Hf3 & Hmain).
    assert (ydl_calls final = [(queue, opts1); (failed_urls s1, opts2)])
      as Hcalls by (unfold final; rewrite Hmain; exact Hc3).
    apply retry_condition_spec in Hretry as Hcond.
    rewrite Hcalls. simpl.
    split; [done|]. split; [done|]. split; [|lia].
    intros _. exists s2, s3. split; [done|]. split; [done|].
    split; [by unfold final; rewrite Hmain|]. split; [done|].
    destruct Hcond as [_ Hcookies].
    apply cookies_configured_truthy in Hcookies as Htruthy.
    unfold opts2. rewrite cookiefile_of_options, Htruthy.
    split; [done|]. destruct Hcookies as (path & -> & _). eauto.
  - assert (ydl_calls final = [(queue, opts1)])
      as Hcalls by (unfold final; rewrite Hrest; exact Hc1).
    rewrite Hcalls. simpl.
    split; [|split; [done|split; [done|lia]]].
    split; [done|]. intros Hcond%retry_condition_spec. congruence.
Qed.

Lemma retry_pass_iff_witness :
  let w := Sample.w in
  let config := world_config w in
  let queue := world_queue w in
  let opts1 := create_youtube_dl_options config false in
  let opts2 := create_youtube_dl_options config true in
  let final := (run_main w ∅).2 in
  config_missing config = [] ∧
  queue ≠ [] ∧
  ∃ s0 s1,
    failed_urls s0 = [] ∧ ydl_calls s0 = [] ∧
    download_songs (ydl_events w) queue opts1 s0 = (Ok (), s1) ∧
    failed_urls s1 = record_failures (ydl_events w queue opts1) [] ∧
    opt_cookiefile opts1 = None ∧
    (length (ydl_calls final) = 2%nat ↔
     failed_urls s1 ≠ [] ∧ cookies_configured config) ∧
    (length (ydl_calls final) ≠ 2%nat →
     ydl_calls final = [(queue, opts1)]) ∧
    (length (ydl_calls final) = 2%nat →
     ∃ s2 s3,
       failed_urls s2 = [] ∧
       download_songs (ydl_events w) (failed_urls s1) opts2 s2
         = (Ok (), s3) ∧
       final = set_out (out final) s3 ∧
       ydl_calls final = [(queue, opts1); (failed_urls s1, opts2)] ∧
       opt_cookiefile opts2 = cookies_filepath config ∧
       is_Some (opt_cookiefile opts2)) ∧
    (length (ydl_calls final) ≤ 2)%nat.
Proof.
  assert (config_missing (world_config Sample.w) = []) as Hm
    by (vm_compute; reflexivity).
  assert (world_queue Sample.w ≠ []) as Hq by (vm_compute; discriminate).
  split; [exact Hm|]. split; [exact Hq|].
  exact (retry_pass_iff Sample.w ∅ Hm Hq).
Defined.

(** A cookies setting that is the empty string counts as no cookies
    file: the failures of the first pass are reported and not retried. *)
Example blank_cookies_setting_no_retry :
  let final := (run_main Sample.w_blank_cookies ∅).2 in
  cookies_filepath (world_config Sample.w_blank_cookies) = Some "" ∧
  failed_urls final = [video_url "id2"] ∧
  (ydl_calls final).*1 = [[video_url "id2"]].
Proof. vm_compute. repeat split; reflexivity. Qed.

(** C4. In a run where the retry pass happens (the download engine is
    invoked twice), [main] returns normally, and the failed URLs it
    reports at the end are exactly the URLs that the error events of the
    second pass report, each once: a URL of the retry list for which the
    second pass reports no failure is not among them. The report is logged
    just before the closing line: at ERROR level with the failed URLs when
    there are some, else as a full recovery. There is no third
    invocation. *)
Theorem retry_report_is_second_pass_failures w disk :
  let final := (run_main w disk).2 in
  length (ydl_calls final) = 2%nat →
  ∃ first_call retry_list opts2 front,
    ydl_calls final = [first_call; (retry_list, opts2)] ∧
    (run_main w disk).1 = Ok () ∧
    NoDup (failed_urls final) ∧
    (∀ u, u ∈ failed_urls final ↔
          u ∈ pass_failures (ydl_events w retry_list opts2)) ∧
    (∀ u, u ∈ retry_list →
          u ∉ pass_failures (ydl_events w retry_list opts2) →
          u ∉ failed_urls final) ∧
    out final
    = front ++ [ (if bool_decide (failed_urls final = [])
                  then Log INFO MsgAllRetrySucceeded
                  else Log ERROR (MsgAfterRetry (len (failed_urls final))
                                                (failed_urls final)));
                 Log INFO MsgAllCompleted ].
Proof.
  intros final Hcalls.
  destruct (decide (config_missing (world_config w) = [])) as [Hm|Hm]; cycle 1.
  { destruct (main_config_error w disk Hm) as (s & Hrun & Hnone & _).
    unfold final in Hcalls. rewrite Hrun in Hcalls. simpl in Hcalls.
    rewrite Hnone in Hcalls. discriminate Hcalls. }
  destruct (decide (world_queue w = [])) as [Hq|Hq].
  { destruct (main_empty_queue w disk Hm Hq) as (s & Hrun & Hnone & _).
    unfold final in Hcalls. rewrite Hrun in Hcalls. simpl in Hcalls.
    rewrite Hnone in Hcalls. discriminate Hcalls. }
  destruct (main_passes w disk Hm Hq)
    as (s0 & s1 & Hf0 & Hc0 & Hrun1 & Hc1 & Hf1 & Hrest).
  destruct (retry_condition (world_config w) (failed_urls s1)); cycle 1.
  { unfold final in Hcalls. rewrite Hrest in Hcalls. simpl in Hcalls.
    rewrite Hc1 in Hcalls. discriminate Hcalls. }
  destruct Hrest as (s2 & s3 & Hf2 & Hc2 & Hrun3 & Hc3 & Hf3 & Hmain).
  set (opts2 := create_youtube_dl_options (world_config w) true) in *.
  assert (failed_urls final = failed_urls s3) as Hfinal
    by (unfold final; rewrite Hmain; reflexivity).
  assert (∀ u, u ∈ failed_urls final ↔
               u ∈ pass_failures (ydl_events w (failed_urls s1) opts2))
    as Hexact.
  { intros u. rewrite Hfinal, Hf3, elem_of_record_failures, elem_of_nil.
    tauto. }
  eexists _, (failed_urls s1), opts2, (out s3).
  split; [unfold final; rewrite Hmain; exact Hc3|].
  split; [by rewrite Hmain|].
  split.
  { rewrite Hfinal, Hf3. apply record_failures_NoDup, NoDup_nil_2. }
  split; [exact Hexact|].
  split; [intros u _ Hnot Hin; by apply Hnot, Hexact|].
  rewrite Hfinal. unfold final. rewrite Hmain. reflexivity.
Qed.

Lemma retry_report_witness :
  let final := (run_main Sample.w ∅).2 in
  length (ydl_calls final) = 2%nat ∧
  ∃ first_call retry_list opts2 front,
    ydl_calls final = [first_call; (retry_list, opts2)] ∧
    (run_main Sample.w ∅).1 = Ok () ∧
    NoDup (failed_urls final) ∧
    (∀ u, u ∈ failed_urls final ↔
          u ∈ pass_failures (ydl_events Sample.w retry_list opts2)) ∧
    (∀ u, u ∈ retry_list →
          u ∉ pass_failures (ydl_events Sample.w retry_list opts2) →
          u ∉ failed_urls final) ∧
    out final
    = front ++ [ (if bool_decide (failed_urls final = [])
                  then Log INFO MsgAllRetrySucceeded
                  else Log ERROR (MsgAfterRetry (len (failed_urls final))
                                                (failed_urls final)));
                 Log INFO MsgAllCompleted ].
Proof.
  assert (length (ydl_calls (run_main Sample.w ∅).2) = 2%nat) as Hcalls
    by (vm_compute; reflexivity).
  split; [exact Hcalls|].
  exact (retry_report_is_second_pass_failures Sample.w ∅ Hcalls).
Defined.

(** The sample run: the first pass fails on the one queued URL, the
    retry with cookies succeeds, nothing is reported as failed and the
    playlist holds the line of the recovered track. *)
Example sample_run_recovers :
  let final := (run_main Sample.w ∅).2 in
  (run_main Sample.w ∅).1 = Ok () ∧
  (ydl_calls final).*1 = [[video_url "id2"]; [video_url "id2"]] ∧
  failed_urls final = [] ∧
  files final !! "/srv/music/liked.m3u"
  = Some ("/srv/music/Two [id2].mp3" +:+ Py.newline).
Proof. vm_compute. repeat split; reflexivity. Qed.

(* ===================================================================== *)
(** * The configuration *)
(* ===================================================================== *)

Lemma config_missing_unset environ :
  config_missing (getenv_config environ) = unset_settings environ.
Proof.
  unfold config_missing, unset_settings, required_settings, config_items,
    getenv_config. simpl.
  destruct (environ !! "OAUTH2_CLIENT_ID"),
    (environ !! "OAUTH2_CLIENT_SECRET"), (environ !! "OAUTH2_FILEPATH"),
    (environ !! "COOKIES_FILEPATH"), (environ !! "MUSIC_FOLDERPATH"),
    (environ !! "PLAYLIST_FILEPATH"), (environ !! "PLAYLIST_ID");
    vm_compute; reflexivity.
Qed.

Lemma unset_settings_nil environ :
  unset_settings environ = [] ↔
  ∀ key var, (key, var) ∈ required_settings → is_Some (environ !! var).
Proof.
  unfold unset_settings. split.
  - intros Hnil key var Hin.
    destruct (environ !! var) as [v|] eqn:Hv; [eauto|]. exfalso.
    assert (key ∈ @nil string) as Hk; [|by apply elem_of_nil in Hk].
    rewrite <- Hnil. apply list_elem_of_omap.
    exists (key, var). simpl. by rewrite Hv.
  - intros Hall.
    destruct (omap _ required_settings) as [|k l] eqn:Hm; [done|].
    assert (k ∈ k :: l) as Hk by apply list_elem_of_here.
    rewrite <- Hm in Hk.
    apply list_elem_of_omap in Hk as ([key var] & Hin & Hk).
    simpl in Hk. destruct (Hall key var Hin) as [v Hv]. by rewrite Hv in Hk.
Qed.

(** X1. [load_configuration] returns exactly when each of the six
    required variables is set, to any string, the empty one included;
    [COOKIES_FILEPATH] may be unset. It then returns the values of the
    seven variables and leaves the state as it was: nothing is logged. *)
Theorem load_configuration_returns_iff environ s :
  (∀ key var, (key, var) ∈ required_settings → is_Some (environ !! var)) ↔
  load_configuration environ s = (Ok (getenv_config environ), s).
Proof.
  rewrite <- unset_settings_nil, <- config_missing_unset.
  rewrite load_configuration_run.
  destruct (config_missing (getenv_config environ)) as [|k m].
  - split; done.
  - split; [done|]. intros [=].
Qed.

(** X2. When a required variable is unset, [load_configuration] raises
    [ValueError] after logging one line at ERROR level, and changes
    nothing else. The line lists the configuration keys of the unset
    required variables, in the order of the dict literal; it never lists
    [cookies_filepath]. *)
Theorem load_configuration_reports_unset_settings environ s :
  unset_settings environ ≠ [] →
  load_configuration environ s
  = (Raise (ValueError
       "Configuration incomplete. Please set the missing environment variables."),
     set_out (out s ++ [Log ERROR (MsgMissingEnv (unset_settings environ))])
       s) ∧
  (∀ key, key ∈ unset_settings environ ↔
          ∃ var, (key, var) ∈ required_settings ∧ environ !! var = None) ∧
  "cookies_filepath" ∉ unset_settings environ.
Proof.
  intros Hne.
  assert (∀ key, key ∈ unset_settings environ ↔
                 ∃ var, (key, var) ∈ required_settings
                        ∧ environ !! var = None) as Hkeys.
  { intros key. unfold unset_settings. rewrite list_elem_of_omap. split.
    - intros ([k var] & Hin & Hk). simpl in Hk.
      destruct (environ !! var) eqn:Hv; [done|].
      injection Hk as ->. eauto.
    - intros (var & Hin & Hv). exists (key, var). simpl. by rewrite Hv. }
  split; [|split; [exact Hkeys|]].
  - rewrite load_configuration_run, config_missing_unset.
    by destruct (unset_settings environ).
  - intros (var & Hin & _)%Hkeys. unfold required_settings in Hin.
    repeat (apply elem_of_cons in Hin as [[=]|Hin]).
    by apply elem_of_nil in Hin.
Qed.

Lemma load_configuration_reports_witness :
  unset_settings (delete "PLAYLIST_ID" Sample.env) ≠ [] ∧
  load_configuration (delete "PLAYLIST_ID" Sample.env) (initial_state ∅)
  = (Raise (ValueError
       "Configuration incomplete. Please set the missing environment variables."),
     set_out (out (initial_state ∅)
              ++ [Log ERROR
                    (MsgMissingEnv
                       (unset_settings (delete "PLAYLIST_ID" Sample.env)))])
       (initial_state ∅)) ∧
  (∀ key, key ∈ unset_settings (delete "PLAYLIST_ID" Sample.env) ↔
          ∃ var, (key, var) ∈ required_settings
                 ∧ delete "PLAYLIST_ID" Sample.env !! var = None) ∧
  "cookies_filepath" ∉ unset_settings (delete "PLAYLIST_ID" Sample.env).
Proof.
  assert (unset_settings (delete "PLAYLIST_ID" Sample.env) ≠ []) as Hne
    by (vm_compute; discriminate).
  split; [exact Hne|].
  exact (load_configuration_reports_unset_settings
           (delete "PLAYLIST_ID" Sample.env) (initial_state ∅) Hne).
Defined.

Example unset_settings_in_order :
  unset_settings
    (delete "OAUTH2_FILEPATH" (delete "PLAYLIST_ID"
       (delete "COOKIES_FILEPATH" Sample.env)))
  = ["oauth2_filepath"; "playlist_id"].
Proof. vm_compute. reflexivity. Qed.

(** X3. A run whose environment lacks a required variable stops before
    anything else happens: it logs which environment file was loaded, the
    unset settings and the exit notice, and ends with [sys.exit(1)]. The
    playlist service and the download engine are never called, no global
    is set and no file is touched. *)
Theorem main_exits_1_on_unset_setting w disk :
  unset_settings (environ w) ≠ [] →
  run_main w disk
  = (Raise (SystemExit 1),
     set_out [ Log INFO (MsgLoadedEnv (env_file w));
               Log ERROR (MsgMissingEnv (unset_settings (environ w)));
               Log ERROR MsgConfigExit ]
       (initial_state disk)) ∧
  exit_code (run_main w disk).1 = 1.
Proof.
  intros Hne.
  assert (run_main w disk
          = (Raise (SystemExit 1),
             set_out [ Log INFO (MsgLoadedEnv (env_file w));
                       Log ERROR (MsgMissingEnv (unset_settings (environ w)));
                       Log ERROR MsgConfigExit ]
               (initial_state disk))) as Hrun.
  { unfold run_main, main.
    mstep. mstep. unfold try_except_ValueError.
    rewrite load_configuration_run, config_missing_unset.
    destruct (unset_settings (environ w)) as [|k m]; [done|].
    unfold_m. reflexivity. }
  split; [exact Hrun|]. by rewrite Hrun.
Qed.

Lemma main_exits_1_witness :
  let w := {| env_file := ".env"; environ := delete "PLAYLIST_ID" Sample.env;
              api_tracks := Some Sample.tracks; folder_mp3 := Sample.folder;
              ydl_events := Sample.ydl |} in
  unset_settings (environ w) ≠ [] ∧
  run_main w ∅
  = (Raise (SystemExit 1),
     set_out [ Log INFO (MsgLoadedEnv (env_file w));
               Log ERROR (MsgMissingEnv (unset_settings (environ w)));
               Log ERROR MsgConfigExit ]
       (initial_state ∅)) ∧
  exit_code (run_main w ∅).1 = 1.
Proof.
  assert (unset_settings (delete "PLAYLIST_ID" Sample.env) ≠ []) as Hne
    by (vm_compute; discriminate).
  split; [exact Hne|].
  exact (main_exits_1_on_unset_setting
           {| env_file := ".env"; environ := delete "PLAYLIST_ID" Sample.env;
              api_tracks := Some Sample.tracks; folder_mp3 := Sample.folder;
              ydl_events := Sample.ydl |} ∅ Hne).
Defined.

(* ===================================================================== *)
(** * The options of the download engine *)
(* ===================================================================== *)

(** X5. The options carry a cookie file exactly when cookies are asked
    for and the configured path is a non-empty string, and the file is
    then the configured one. Every other option is the same with and
    without cookies: errors are ignored, playlists are not expanded, and
    the only progress hook is [progress_hook]. *)
Theorem cookiefile_only_when_asked_and_configured config use_cookies :
  (∀ path,
     opt_cookiefile (create_youtube_dl_options config use_cookies)
     = Some path ↔
     use_cookies = true ∧ cookies_filepath config = Some path ∧ path ≠ "") ∧
  (let with_cookies := create_youtube_dl_options config use_cookies in
   let without := create_youtube_dl_options config false in
   opt_cookiefile without = None ∧
   opt_format with_cookies = opt_format without ∧
   opt_paths_home with_cookies = music_folderpath config ∧
   opt_quiet with_cookies = opt_quiet without ∧
   opt_noplaylist with_cookies = true ∧
   opt_postprocessors with_cookies = opt_postprocessors without ∧
   opt_progress_hooks with_cookies = [progress_hook_ref] ∧
   opt_ignoreerrors with_cookies = true).
Proof.
  split.
  - intros path. unfold create_youtube_dl_options, Py.truthy.
    destruct use_cookies; simpl.
    + destruct (cookies_filepath config) as [p|]; simpl.
      * case_bool_decide as Hp; simpl.
        -- split; [done|]. intros (_ & [= ->] & Hne). done.
        -- split; [intros [= ->]; done|]. by intros (_ & -> & _).
      * split; [done|]. by intros (_ & [=] & _).
    + split; [done|]. by intros ([=] & _).
  - unfold create_youtube_dl_options.
    destruct (use_cookies && Py.truthy (cookies_filepath config));
      simpl; repeat split.
Qed.

(* ===================================================================== *)
(** * More on the queue builder *)
(* ===================================================================== *)

Lemma queue_of_app tracks1 tracks2 already_downloaded :
  queue_of (tracks1 ++ tracks2) already_downloaded
  = queue_of tracks1 already_downloaded
    ++ queue_of tracks2 already_downloaded.
Proof. unfold queue_of. apply omap_app. Qed.

(** X6. The queue of a playlist made of two parts is the queue of the
    first part followed by the queue of the second: tracks are decided
    one by one, and nothing is deduplicated, so a playlist that lists
    its tracks twice queues every URL twice. *)
Theorem build_download_queue_app tracks1 tracks2 already_downloaded s :
  ∃ queue1 queue2,
    (build_download_queue tracks1 already_downloaded s).1 = Ok queue1 ∧
    (build_download_queue tracks2 already_downloaded s).1 = Ok queue2 ∧
    (build_download_queue (tracks1 ++ tracks2) already_downloaded s).1
    = Ok (queue1 ++ queue2) ∧
    (build_download_queue (tracks1 ++ tracks1) already_downloaded s).1
    = Ok (queue1 ++ queue1).
Proof.
  exists (queue_of tracks1 already_downloaded),
         (queue_of tracks2 already_downloaded).
  rewrite !build_download_queue_run. simpl.
  by rewrite !queue_of_app.
Qed.

Lemma queued_url_None already_downloaded t :
  queued_url already_downloaded t = None ↔
  Py.truthy (track_videoId t) = false ∨
  ∃ video_id filename,
    track_videoId t = Some video_id ∧ filename ∈ already_downloaded ∧
    substring ("[" +:+ video_id +:+ "]") filename.
Proof.
  unfold queued_url, Py.truthy. destruct (track_videoId t) as [v|].
  - case_bool_decide as Hv; simpl; [by split; [left|]|].
    destruct (any_contains v already_downloaded) eqn:Hany.
    + apply any_contains_spec in Hany as (f & Hin & Hsub).
      split; [|done]. intros _. right. by exists v, f.
    + split; [done|]. intros [?|(v' & f & [= <-] & Hin & Hsub)]; [done|].
      pose proof (proj1 (any_contains_false _ _) Hany f Hin). done.
  - split; [by left|done].
Qed.

(** X7. The queue is empty exactly when every track of the playlist
    either has no identifier ([videoId] missing or empty) or has its
    token [[videoId]] in the name of some local file. In particular an
    empty playlist gives an empty queue. *)
Theorem build_download_queue_empty_iff tracks already_downloaded s :
  (build_download_queue tracks already_downloaded s).1 = Ok [] ↔
  ∀ t, t ∈ tracks →
       Py.truthy (track_videoId t) = false ∨
       ∃ video_id filename,
         track_videoId t = Some video_id ∧ filename ∈ already_downloaded ∧
         substring ("[" +:+ video_id +:+ "]") filename.
Proof.
  rewrite build_download_queue_run. simpl. unfold queue_of. split.
  - intros [= Hnil] t Hin. apply queued_url_None.
    destruct (queued_url already_downloaded t) as [u|] eqn:Hu; [|done].
    assert (u ∈ @nil string) as Hu'; [|by apply elem_of_nil in Hu'].
    rewrite <- Hnil. apply list_elem_of_omap. eauto.
  - intros Hall. f_equal.
    destruct (omap _ tracks) as [|u l] eqn:Hm; [done|].
    assert (u ∈ u :: l) as Hu by apply list_elem_of_here.
    rewrite <- Hm in Hu. apply list_elem_of_omap in Hu as (t & Hin & Hu).
    apply Hall, queued_url_None in Hin. congruence.
Qed.

Lemma any_contains_mono video_id files files' :
  files ⊆ files' →
  any_contains video_id files = true → any_contains video_id files' = true.
Proof.
  intros Hsub (f & Hin & Hf)%any_contains_spec.
  apply any_contains_spec. exists f. split; [by apply Hsub|done].
Qed.

Lemma queued_url_more_files files files' t url :
  files ⊆ files' →
  queued_url files' t = Some url → queued_url files t = Some url.
Proof.
  intros Hsub. unfold queued_url. destruct (track_videoId t) as [v|]; [|done].
  case_bool_decide; [done|].
  destruct (any_contains v files) eqn:Hany.
  - by rewrite (any_contains_mono v files files' Hsub Hany).
  - by destruct (any_contains v files').
Qed.

(** X8. More local files never add work: when every name of one listing
    is in another, the queue built from the larger listing is obtained
    from the queue built from the smaller one by removing URLs, the
    others staying in their order. *)
Theorem build_download_queue_more_files tracks files files' s :
  files ⊆ files' →
  ∃ queue queue',
    (build_download_queue tracks files s).1 = Ok queue ∧
    (build_download_queue tracks files' s).1 = Ok queue' ∧
    queue' `sublist_of` queue.
Proof.
  intros Hsub. exists (queue_of tracks files), (queue_of tracks files').
  rewrite !build_download_queue_run. simpl.
  split; [done|]. split; [done|].
  unfold queue_of. induction tracks as [|t tracks IH]; [done|].
  simpl.
  destruct (queued_url files' t) as [u'|] eqn:Hu'.
  - apply queued_url_more_files with (files := files) in Hu'; [|done].
    rewrite Hu'. by apply sublist_skip.
  - destruct (queued_url files t); [by apply sublist_cons|done].
Qed.

Lemma build_download_queue_more_files_witness :
  Sample.folder ⊆ Sample.folder ++ ["Two [id2].mp3"] ∧
  ∃ queue queue',
    (build_download_queue Sample.tracks Sample.folder (initial_state ∅)).1
    = Ok queue ∧
    (build_download_queue Sample.tracks
       (Sample.folder ++ ["Two [id2].mp3"]) (initial_state ∅)).1
    = Ok queue' ∧
    queue' `sublist_of` queue.
Proof.
  assert (Sample.folder ⊆ Sample.folder ++ ["Two [id2].mp3"]) as Hsub
    by (intros f Hf; apply elem_of_app; by left).
  split; [exact Hsub|].
  exact (build_download_queue_more_files Sample.tracks Sample.folder
           (Sample.folder ++ ["Two [id2].mp3"]) (initial_state ∅) Hsub).
Defined.

(* ===================================================================== *)
(** * More on the per-item tracker *)
(* ===================================================================== *)

Lemma for_each_app {A} (l1 l2 : list A) body s :
  for_each (l1 ++ l2) body s =
    match for_each l1 body s with
    | (Ok _, s') => for_each l2 body s'
    | (Raise e, s') => (Raise e, s')
    end.
Proof.
  revert s. induction l1 as [|x l1 IH]; intros s; [done|].
  rewrite <- app_comm_cons, !for_each_cons.
  destruct (body x s) as [[[]|e] s']; [apply IH|done].
Qed.

Lemma set_individual_twice b b' s :
  set_individual_progress_bar b (set_individual_progress_bar b' s)
  = set_individual_progress_bar b s.
Proof. done. Qed.

(** A run of "downloading" events on an open tracker. *)
Lemma downloading_events_run events : ∀ b s,
  Forall (λ d, ev_status d = Some "downloading") events →
  individual_progress_bar s = Some b →
  Tqdm.disable b = false →
  for_each events progress_hook s
  = (Ok (), set_individual_progress_bar (Some (tracked b events)) s).
Proof.
  induction events as [|d events IH]; intros b s Hall Hb Hopen.
  - unfold for_each, tracked. simpl. unfold ret. f_equal.
    destruct s. simpl in Hb. by rewrite Hb.
  - apply Forall_cons in Hall as [Hd Hall].
    rewrite for_each_cons.
    assert (progress_hook d s
            = (Ok (), set_individual_progress_bar
                        (Some (tracked b [d])) s)) as ->.
    { unfold progress_hook. rewrite Hd. simpl. unfold bind, gets, modify.
      rewrite Hb. unfold Tqdm.update, tracked, Py.get. rewrite Hopen. simpl.
      replace (Tqdm.n b + (default 0 (ev_downloaded_bytes d) - Tqdm.n b))
        with (default 0 (ev_downloaded_bytes d)) by lia.
      reflexivity. }
    rewrite (IH (tracked b [d])); [|done|done|done].
    rewrite set_individual_twice. do 3 f_equal.
    unfold tracked. rewrite (last_cons d events). simpl.
    by destruct (last events).
Qed.

Lemma downloading_events_track_the_latest_run d1 events s :
  ev_status d1 = Some "downloading" →
  Forall (λ d, ev_status d = Some "downloading") events →
  individual_progress_bar s = None →
  for_each (d1 :: events) progress_hook s
  = (Ok (), set_individual_progress_bar
              (Some (tracked (opened_tracker d1) events)) s).
Proof.
  intros Hd1 Hall Hnone. rewrite for_each_cons.
  assert (progress_hook d1 s
          = (Ok (), set_individual_progress_bar
                      (Some (opened_tracker d1)) s)) as ->.
  { unfold progress_hook. rewrite Hd1. simpl. unfold bind, gets, modify.
    by rewrite Hnone. }
  rewrite (downloading_events_run events (opened_tracker d1));
    [|done|done|done].
  by rewrite set_individual_twice.
Qed.

(** X9. A run of "downloading" events that starts without tracker
    returns and changes the tracker alone. The first event opens it: its
    total is [total_bytes], else [total_bytes_estimate], else 0 (a total
    of 0 counts as unknown), its label is the title of that event, and
    its count is 0, whatever cumulative byte count the first event
    carries. Each later event sets the count to its own cumulative byte
    count, 0 when it has none; its totals and title are not read. *)
Theorem downloading_events_track_the_latest d1 events s :
  ev_status d1 = Some "downloading" →
  Forall (λ d, ev_status d = Some "downloading") events →
  individual_progress_bar s = None →
  ∃ b,
    for_each (d1 :: events) progress_hook s
    = (Ok (), set_individual_progress_bar (Some b) s) ∧
    Tqdm.total b
    = match ev_total_bytes d1, ev_total_bytes_estimate d1 with
      | Some total, Some estimate =>
          if bool_decide (total = 0) then estimate else total
      | Some total, None => total
      | None, Some estimate => estimate
      | None, None => 0
      end ∧
    Tqdm.desc b = "Downloading: " +:+ info_get d1 info_title "Downloading" ∧
    Tqdm.n b = match last events with
               | Some d => default 0 (ev_downloaded_bytes d)
               | None => 0
               end ∧
    Tqdm.disable b = false.
Proof.
  intros Hd1 Hall Hnone.
  exists (tracked (opened_tracker d1) events).
  split.
  - by apply downloading_events_track_the_latest_run.
  - unfold tracked, opened_tracker, Py.or_int.
    destruct (last events); simpl;
      destruct (ev_total_bytes d1) as [x|],
               (ev_total_bytes_estimate d1) as [y|];
      repeat case_bool_decide; repeat split; congruence.
Qed.

Lemma downloading_events_witness :
  ev_status (Sample.downloading (Some 500) (Some 7)) = Some "downloading" ∧
  Forall (λ d, ev_status d = Some "downloading")
         [Sample.downloading None (Some 250); Sample.no_bytes] ∧
  individual_progress_bar Sample.pass_state = None ∧
  ∃ b,
    for_each (Sample.downloading (Some 500) (Some 7)
              :: [Sample.downloading None (Some 250); Sample.no_bytes])
      progress_hook Sample.pass_state
    = (Ok (), set_individual_progress_bar (Some b) Sample.pass_state) ∧
    Tqdm.total b
    = match ev_total_bytes (Sample.downloading (Some 500) (Some 7)),
            ev_total_bytes_estimate (Sample.downloading (Some 500) (Some 7))
      with
      | Some total, Some estimate =>
          if bool_decide (total = 0) then estimate else total
      | Some total, None => total
      | None, Some estimate => estimate
      | None, None => 0
      end ∧
    Tqdm.desc b
    = "Downloading: "
      +:+ info_get (Sample.downloading (Some 500) (Some 7)) info_title
            "Downloading" ∧
    Tqdm.n b
    = match last [Sample.downloading None (Some 250); Sample.no_bytes] with
      | Some d => default 0 (ev_downloaded_bytes d)
      | None => 0
      end ∧
    Tqdm.disable b = false.
Proof.
  assert (Forall (λ d, ev_status d = Some "downloading")
            [Sample.downloading None (Some 250); Sample.no_bytes]) as Hall
    by (repeat constructor).
  split; [reflexivity|]. split; [exact Hall|]. split; [reflexivity|].
  exact (downloading_events_track_the_latest
           (Sample.downloading (Some 500) (Some 7))
           [Sample.downloading None (Some 250); Sample.no_bytes]
           Sample.pass_state eq_refl Hall eq_refl).
Defined.

(** The tracker after a terminal event, in a pass. *)
Lemma terminal_event_tracker d s g p :
  is_terminal d = true →
  global_progress_bar s = Some g →
  PLAYLIST_FILEPATH s = Some p →
  individual_progress_bar (progress_hook d s).2
  = match individual_progress_bar s with
    | Some b => if bool_decide (0 < Tqdm.total b) then None else Some b
    | None => None
    end.
Proof.
  intros Hterm Hg Hp. unfold is_terminal in Hterm.
  unfold progress_hook.
  destruct (bool_decide (ev_status d = Some "downloading")) eqn:E1.
  { apply bool_decide_eq_true in E1. rewrite E1 in Hterm. done. }
  destruct (bool_decide (ev_status d = Some "finished")) eqn:E2.
  { unfold_m. unfold Tqdm.bool.
    destruct (individual_progress_bar s) as [b|] eqn:Hb;
      [destruct (bool_decide (0 < Tqdm.total b))|];
      simpl; rewrite Hg; simpl; rewrite Hp; simpl; done. }
  destruct (bool_decide (ev_status d = Some "error")) eqn:E3; [|done].
  unfold_m. unfold Tqdm.bool.
  destruct (individual_progress_bar s) as [b|] eqn:Hb;
    [destruct (bool_decide (0 < Tqdm.total b))|];
    simpl; destruct (Py.truthy _ && _); simpl; rewrite Hg; simpl; done.
Qed.

(** X10. The events of one item in a pass, "downloading" events followed
    by a terminal event, starting without tracker: the hook returns on
    all of them, and the terminal event removes the tracker exactly when
    its total is positive, [bool(bar)] being [total > 0] for a tqdm bar.
    A tracker opened without a known size is left in place, still open
    and showing the last byte count of the item, so the "downloading"
    events of the next item update it instead of opening their own. *)
Theorem tracker_after_an_item d1 events t s g p :
  ev_status d1 = Some "downloading" →
  Forall (λ d, ev_status d = Some "downloading") events →
  is_terminal t = true →
  individual_progress_bar s = None →
  global_progress_bar s = Some g →
  Tqdm.disable g = false →
  PLAYLIST_FILEPATH s = Some p →
  ∃ s',
    for_each (d1 :: events ++ [t]) progress_hook s = (Ok (), s') ∧
    individual_progress_bar s'
    = (if bool_decide (0 < Tqdm.total (opened_tracker d1)) then None
       else Some (tracked (opened_tracker d1) events)).
Proof.
  intros Hd1 Hall Hterm Hnone Hg Hopen Hp.
  pose proof
    (downloading_events_track_the_latest_run d1 events s Hd1 Hall Hnone)
    as Hrun.
  rewrite app_comm_cons, for_each_app, Hrun.
  set (s1 := set_individual_progress_bar _ s).
  destruct (progress_hook_step t s1 g p) as (s2 & g2 & Hstep & _);
    [done..|].
  exists s2. rewrite for_each_cons, Hstep. split; [done|].
  pose proof (terminal_event_tracker t s1 g p Hterm) as Htr.
  rewrite Hstep in Htr. simpl in Htr. rewrite Htr by done.
  unfold tracked. by destruct (last events).
Qed.

Lemma tracker_after_an_item_witness :
  ev_status (Sample.downloading None (Some 7)) = Some "downloading" ∧
  Forall (λ d, ev_status d = Some "downloading")
         [Sample.downloading None (Some 250)] ∧
  is_terminal Sample.finished = true ∧
  individual_progress_bar Sample.pass_state = None ∧
  ∃ s',
    for_each (Sample.downloading None (Some 7)
              :: [Sample.downloading None (Some 250)] ++ [Sample.finished])
      progress_hook Sample.pass_state = (Ok (), s') ∧
    individual_progress_bar s'
    = (if bool_decide
            (0 < Tqdm.total (opened_tracker (Sample.downloading None (Some 7))))
       then None
       else Some (tracked (opened_tracker (Sample.downloading None (Some 7)))
                    [Sample.downloading None (Some 250)])).
Proof.
  assert (Forall (λ d, ev_status d = Some "downloading")
            [Sample.downloading None (Some 250)]) as Hall
    by (repeat constructor).
  split; [reflexivity|]. split; [exact Hall|]. split; [reflexivity|].
  split; [reflexivity|].
  exact (tracker_after_an_item (Sample.downloading None (Some 7))
           [Sample.downloading None (Some 250)] Sample.finished
           Sample.pass_state (Tqdm.new 1 "song" "Overall Progress")
           "/srv/music/liked.m3u" eq_refl Hall eq_refl eq_refl eq_refl
           eq_refl eq_refl).
Defined.

(** A tracker of unknown size outlives its item: after an item without
    totals has finished, the first "downloading" event of the next item
    updates the old tracker, which keeps the label of the first item. *)
Example unsized_tracker_is_reused :
  individual_progress_bar
    (for_each [ Sample.downloading None None;
                Sample.downloading None (Some 250);
                Sample.finished;
                {| ev_status := Some "downloading";
                   ev_total_bytes := Some 900;
                   ev_total_bytes_estimate := None;
                   ev_downloaded_bytes := Some 30;
                   ev_info_dict :=
                     Some {| info_title := Some "Three";
                             info_webpage_url := None |};
                   ev_filename := None; ev_error := None |} ]
       progress_hook Sample.pass_state).2
  = Some {| Tqdm.total := 0; Tqdm.n := 30;
            Tqdm.desc := "Downloading: Two"; Tqdm.unit := "B";
            Tqdm.disable := false |}.
Proof. vm_compute. reflexivity. Qed.

(* ===================================================================== *)
(** * More on the playlist file *)
(* ===================================================================== *)

(** The files after one event, in a pass. *)
Lemma progress_hook_files d s g p :
  global_progress_bar s = Some g →
  PLAYLIST_FILEPATH s = Some p →
  files (progress_hook d s).2
  = if is_finished d
    then <[p := default "" (files s !! p) +:+ playlist_line d]> (files s)
    else files s.
Proof.
  intros Hg Hp. unfold progress_hook, is_finished, playlist_line.
  destruct (bool_decide (ev_status d = Some "downloading")) eqn:E1.
  { apply bool_decide_eq_true in E1. rewrite E1. simpl.
    unfold_m. by destruct (individual_progress_bar s). }
  destruct (bool_decide (ev_status d = Some "finished")) eqn:E2.
  { unfold_m. unfold append_to_file, Py.get.
    destruct (individual_progress_bar s) as [b|]; [destruct (Tqdm.bool b)|];
      simpl; rewrite Hg; simpl; rewrite Hp; simpl;
      by rewrite (string_app_assoc (Path.stem _) ".mp3"). }
  destruct (bool_decide (ev_status d = Some "error")) eqn:E3; [|done].
  unfold_m.
  destruct (individual_progress_bar s) as [b|]; [destruct (Tqdm.bool b)|];
    simpl; destruct (Py.truthy _ && _); simpl; rewrite Hg; done.
Qed.

(** The files after the events of a pass. *)
Lemma pass_events_files events : ∀ s g p,
  global_progress_bar s = Some g →
  Tqdm.disable g = false →
  PLAYLIST_FILEPATH s = Some p →
  let s' := (for_each events
               (λ d, for_each [progress_hook_ref] (λ h, call_hook h d)) s).2 in
  (∀ q, q ≠ p → files s' !! q = files s !! q) ∧
  default "" (files s' !! p)
  = default "" (files s !! p) +:+ playlist_lines events ∧
  (Forall (λ d, is_finished d = false) events → files s' = files s).
Proof.
  induction events as [|d events IH]; intros s g p Hg Hopen Hp.
  - simpl. by rewrite string_app_nil_r.
  - destruct (progress_hook_step d s g p Hg Hopen Hp)
      as (s1 & g1 & Hrun & Hg1 & Hopen1 & _ & _ & Hp1 & _).
    pose proof (progress_hook_files d s g p Hg Hp) as Hfiles.
    rewrite Hrun in Hfiles. simpl in Hfiles.
    destruct (IH s1 g1 p Hg1 Hopen1 Hp1) as (Hframe & Hcontent & Hsame).
    simpl. rewrite for_each_cons, hooks_singleton, Hrun.
    split; [|split].
    + intros q Hq. rewrite (Hframe q Hq), Hfiles.
      destruct (is_finished d); [by rewrite lookup_insert_ne|done].
    + rewrite Hcontent, Hfiles.
      destruct (is_finished d).
      * rewrite lookup_insert_eq. simpl. by rewrite string_app_assoc.
      * by rewrite string_app_nil_l.
    + intros [Hd Hall]%Forall_cons. rewrite (Hsame Hall), Hfiles.
      by rewrite Hd.
Qed.



(** X12. A "finished" event that reports the path [dir/base.ext] of the
    downloaded file (a base name without slash, an extension without dot
    or slash, neither empty) adds the line [/srv/music/base.mp3] to the
    playlist file: the directory of the download is dropped, only the
    last extension is replaced, and the dots of the base name are
    kept. *)
Theorem finished_lists_the_mp3_of_the_media_file d s g p dir base ext :
  ev_status d = Some "finished" →
  ev_filename d = Some (dir +:+ "/" +:+ base +:+ "." +:+ ext) →
  base ≠ "" → ext ≠ "" →
  Py.occurs "/" base = false → Py.occurs "/" ext = false →
  Py.occurs "." ext = false →
  global_progress_bar s = Some g →
  PLAYLIST_FILEPATH s = Some p →
  (progress_hook d s).1 = Ok () ∧
  files (progress_hook d s).2 !! p
  = Some (default "" (files s !! p)
          +:+ "/srv/music/" +:+ base +:+ ".mp3" +:+ Py.newline).
Proof.
  intros Hst Hfn Hb He Hsb Hse Hde Hg Hp. split.
  - unfold progress_hook. rewrite Hst. simpl. unfold_m.
    destruct (individual_progress_bar s) as [b|]; [destruct (Tqdm.bool b)|];
      simpl; rewrite Hg; simpl; rewrite Hp; reflexivity.
  - rewrite (progress_hook_files d s g p Hg Hp).
    unfold is_finished, playlist_line. rewrite Hst, Hfn. simpl.
    rewrite lookup_insert_eq.
    by rewrite stem_dir_base_ext.
Qed.

Lemma finished_lists_the_mp3_witness :
  ev_status Sample.finished = Some "finished" ∧
  ev_filename Sample.finished
  = Some ("/srv/music" +:+ "/" +:+ "Two [id2]" +:+ "." +:+ "webm") ∧
  (progress_hook Sample.finished Sample.pass_state).1 = Ok () ∧
  files (progress_hook Sample.finished Sample.pass_state).2
    !! "/srv/music/liked.m3u"
  = Some (default "" (files Sample.pass_state !! "/srv/music/liked.m3u")
          +:+ "/srv/music/" +:+ "Two [id2]" +:+ ".mp3" +:+ Py.newline).
Proof.
  split; [reflexivity|]. split; [reflexivity|].
  refine (finished_lists_the_mp3_of_the_media_file Sample.finished
            Sample.pass_state (Tqdm.new 1 "song" "Overall Progress")
            "/srv/music/liked.m3u" "/srv/music" "Two [id2]" "webm"
            eq_refl eq_refl _ _ eq_refl eq_refl eq_refl eq_refl eq_refl);
    discriminate.
Defined.

(** Only the last extension is replaced, and a name without extension
    keeps its whole name. *)
Example playlist_lines_of_odd_names :
  playlist_line
    (Event (Some "finished") None None None None
       (Some "/srv/music/Live.at.Wembley [id9].f251.webm") None)
  = "/srv/music/Live.at.Wembley [id9].f251.mp3" +:+ Py.newline ∧
  playlist_line
    (Event (Some "finished") None None None None (Some "/srv/music/README")
       None)
  = "/srv/music/README.mp3" +:+ Py.newline.
Proof. split; reflexivity. Qed.

(* ===================================================================== *)
(** * More on the failed URLs *)
(* ===================================================================== *)

Lemma for_each_preserves_in {A} (P : state → Prop) (body : A → M ()) l :
  (∀ x s, x ∈ l → P s → P (body x s).2) →
  ∀ s, P s → P (for_each l body s).2.
Proof.
  induction l as [|x l IH]; intros Hbody s Hs; [done|].
  rewrite for_each_cons.
  pose proof (Hbody x s (list_elem_of_here x l) Hs) as Hx.
  destruct (body x s) as [[[]|e] s']; simpl in *; [|done].
  apply IH; [|done]. intros y s2 Hy. apply Hbody. by apply elem_of_cons; right.
Qed.

Lemma record_failure_prefix d urls : urls `prefix_of` record_failure d urls.
Proof.
  unfold record_failure. destruct (reported_failure d) as [u|]; [|done].
  case_bool_decide; [done|]. by apply prefix_app_r.
Qed.

(** X13. Within a pass the failed URLs are only appended to: whatever
    the engine delivers, and whether the pass returns or raises, the list
    at the start of the pass is a prefix of the list at its end, and
    every URL of the list at the end was there at the start or is the
    source URL of some "error" event of the pass. *)
Theorem failed_urls_only_grow ydl songs_to_download youtube_dl_opts s :
  let s' := (download_songs ydl songs_to_download youtube_dl_opts s).2 in
  failed_urls s `prefix_of` failed_urls s' ∧
  ∀ u, u ∈ failed_urls s' →
       u ∈ failed_urls s ∨
       ∃ d, d ∈ ydl songs_to_download youtube_dl_opts ∧
            ev_status d = Some "error" ∧
            info_lookup d info_webpage_url = Some u.
Proof.
  set (events := ydl songs_to_download youtube_dl_opts).
  set (P := λ s1 : state,
         failed_urls s `prefix_of` failed_urls s1 ∧
         ∀ u, u ∈ failed_urls s1 →
              u ∈ failed_urls s ∨
              ∃ d, d ∈ events ∧ ev_status d = Some "error" ∧
                   info_lookup d info_webpage_url = Some u).
  assert (∀ d s1, d ∈ events → P s1 → P (progress_hook d s1).2) as Hhook.
  { intros d s1 Hd [Hpre Hin].
    destruct (progress_hook_failed_urls d s1) as [Heq|Heq];
      unfold P; rewrite Heq; [done|]. split.
    - etrans; [exact Hpre|apply record_failure_prefix].
    - intros u [Hu|Hu]%elem_of_record_failure; [by apply Hin|].
      right. exists d. split; [done|].
      unfold reported_failure in Hu.
      case_bool_decide as Hst; [|done].
      destruct (info_lookup d info_webpage_url) as [v|]; [|done].
      case_bool_decide; [done|]. by injection Hu as ->. }
  assert (∀ d s1, d ∈ events → P s1 →
            P (for_each (opt_progress_hooks youtube_dl_opts)
                 (λ h, call_hook h d) s1).2) as Hbody.
  { intros d s1 Hd Hs1. apply (for_each_preserves P); [|done].
    intros [] s2 Hs2. simpl. by apply Hhook. }
  simpl. fold (P (download_songs ydl songs_to_download youtube_dl_opts s).2).
  unfold download_songs.
  unfold bind at 1, modify at 1. unfold bind at 1, modify at 1.
  unfold bind at 1. fold events.
  set (s0 := set_ydl_calls _ _).
  assert (P s0) as Hs0 by (split; [done|auto]).
  pose proof (for_each_preserves_in P
    (λ d, for_each (opt_progress_hooks youtube_dl_opts)
            (λ h, call_hook h d)) events Hbody s0 Hs0) as Hloop.
  destruct (for_each _ _ s0) as [[[]|e] s1]; simpl in *; [|done].
  unfold_m. by destruct (global_progress_bar s1).
Qed.

(* ===================================================================== *)
(** * More on the whole run *)
(* ===================================================================== *)

Lemma string_app_eq_nil x y : x +:+ y = "" → x = "" ∧ y = "".
Proof. destruct x as [|a x]; [done|]. by rewrite string_app_cons. Qed.

Lemma playlist_lines_nil events :
  playlist_lines events = "" → Forall (λ d, is_finished d = false) events.
Proof.
  induction events as [|d events IH]; [done|]. simpl.
  intros [Hd Hrest]%string_app_eq_nil. constructor; [|by apply IH].
  destruct (is_finished d); [|done]. unfold playlist_line in Hd.
  change "/srv/music/" with (String "/" "srv/music/") in Hd.
  by rewrite string_app_cons in Hd.
Qed.

(** A whole pass with the options of [create_youtube_dl_options]: the
    aggregate bar, the failed URLs and the files. *)
Lemma download_songs_detail ydl songs config use_cookies s p :
  PLAYLIST_FILEPATH s = Some p →
  let opts := create_youtube_dl_options config use_cookies in
  ∃ s' g',
    download_songs ydl songs opts s = (Ok (), s') ∧
    global_progress_bar s' = Some g' ∧
    Tqdm.total g' = len songs ∧
    Tqdm.n g' = count_terminal (ydl songs opts) ∧
    Tqdm.disable g' = true ∧
    PLAYLIST_FILEPATH s' = Some p ∧
    ydl_calls s' = ydl_calls s ++ [(songs, opts)] ∧
    failed_urls s' = record_failures (ydl songs opts) (failed_urls s) ∧
    (∀ q, q ≠ p → files s' !! q = files s !! q) ∧
    default "" (files s' !! p)
    = default "" (files s !! p) +:+ playlist_lines (ydl songs opts) ∧
    (playlist_lines (ydl songs opts) = "" → files s' = files s).
Proof.
  intros Hp opts. unfold download_songs.
  assert (opt_progress_hooks opts = [progress_hook_ref]) as ->
    by apply hooks_of_options.
  unfold bind at 1. unfold modify at 1. unfold bind at 1. unfold modify at 1.
  unfold bind at 1.
  set (s0 := set_ydl_calls _ _).
  pose proof (pass_events_files (ydl songs opts) s0
                (Tqdm.new (len songs) "song" "Overall Progress")
                p eq_refl eq_refl Hp) as (Hframe & Hcontent & Hsame).
  destruct (pass_events (ydl songs opts) s0
              (Tqdm.new (len songs) "song" "Overall Progress") p)
    as (s1 & g1 & Hrun & Hg1 & Hd1 & Ht1 & Hn1 & Hp1 & Hc1 & Hf1);
    [done..|].
  rewrite Hrun in Hframe, Hcontent, Hsame |- *.
  simpl in Hframe, Hcontent, Hsame.
  unfold_m. rewrite Hg1. simpl.
  eexists _, _. split; [reflexivity|]. simpl.
  repeat split; try done.
  intros Hnil. by apply Hsame, playlist_lines_nil.
Qed.

(** A run with a complete configuration and a non-empty queue, with the
    playlist path and the files of the states between its steps. *)
Lemma main_passes_detail w disk :
  let config := world_config w in
  let queue := world_queue w in
  let opts1 := create_youtube_dl_options config false in
  let opts2 := create_youtube_dl_options config true in
  config_missing config = [] →
  queue ≠ [] →
  ∃ p s0 s1,
    playlist_filepath config = Some p ∧
    PLAYLIST_FILEPATH s0 = Some p ∧ files s0 = disk ∧
    failed_urls s0 = [] ∧ ydl_calls s0 = [] ∧
    download_songs (ydl_events w) queue opts1 s0 = (Ok (), s1) ∧
    failed_urls s1 = record_failures (ydl_events w queue opts1) [] ∧
    if retry_condition config (failed_urls s1) then
      ∃ s2 s3,
        PLAYLIST_FILEPATH s2 = Some p ∧ files s2 = files s1 ∧
        failed_urls s2 = [] ∧ ydl_calls s2 = ydl_calls s1 ∧
        download_songs (ydl_events w) (failed_urls s1) opts2 s2
          = (Ok (), s3) ∧
        run_main w disk =
          (Ok (), set_out (out s3 ++ [retry_report (failed_urls s3);
                                      Log INFO MsgAllCompleted]) s3)
    else
      run_main w disk =
        (Ok (), set_out (out s1 ++ [Log INFO MsgFirstCompleted]
                           ++ first_report (failed_urls s1)
                           ++ [Log INFO MsgAllCompleted]) s1).
Proof.
  intros config queue opts1 opts2 Hm Hq.
  destruct (config_complete_playlist config Hm) as [p Hp].
  remember (run_main w disk) as R eqn:HR.
  unfold run_main, main in HR.
  mstep in HR. mstep in HR.
  unfold try_except_ValueError in HR. rewrite load_configuration_run in HR.
  fold (world_config w) in HR. fold config in HR. rewrite Hm in HR.
  do 4 mstep in HR.
  unfold get_already_downloaded in HR. do 3 mstep in HR.
  unfold bind at 1 in HR. rewrite build_download_queue_run in HR.
  unfold Py.get in HR. fold (world_queue w) in HR. fold queue in HR.
  mstep in HR. rewrite bool_decide_eq_false_2 in HR by done.
  mstep in HR.
  match type of HR with context [download_songs _ queue _ ?s] =>
    set (s0 := s) in HR end.
  destruct (download_songs_detail (ydl_events w) queue config false s0 p)
    as (s1 & g1 & Hrun1 & _ & _ & _ & _ & Hp1 & Hc1 & Hf1 & _); [done|].
  exists p, s0, s1.
  split; [done|]. split; [done|]. split; [done|]. split; [done|].
  split; [done|]. split; [done|]. split; [done|].
  unfold bind at 1 in HR. rewrite Hrun1 in HR.
  mstep in HR. unfold retry_condition.
  change (cookies_filepath config) with (environ w !! "COOKIES_FILEPATH").
  destruct (negb (bool_decide (failed_urls s1 = []))
            && Py.truthy (environ w !! "COOKIES_FILEPATH")) eqn:Hretry.
  - mstep in HR. mstep in HR. unfold bind at 1 in HR.
    match type of HR with context [download_songs _ (failed_urls s1) _ ?s] =>
      set (s2 := s) in HR end.
    destruct (download_songs_detail (ydl_events w) (failed_urls s1) config
                true s2 p)
      as (s3 & g3 & Hrun3 & _); [done|].
    exists s2, s3. split; [done|]. split; [done|]. split; [done|].
    split; [done|]. split; [done|].
    rewrite Hrun3 in HR. rewrite HR.
    unfold retry_report. unfold_m. simpl.
    destruct (bool_decide (failed_urls s3 = [])); simpl;
      by rewrite <- app_assoc.
  - rewrite HR. unfold first_report.
    destruct (bool_decide (failed_urls s1 = [])); simpl; unfold_m; simpl;
      by rewrite <- ?app_assoc.
Qed.

Lemma record_failures_nil_iff events :
  record_failures events [] = [] ↔ pass_failures events = [].
Proof.
  split; intros Hnil.
  - destruct (pass_failures events) as [|u l] eqn:Hp; [done|].
    assert (u ∈ record_failures events []) as Hu.
    { apply elem_of_record_failures. right. rewrite Hp.
      apply list_elem_of_here. }
    rewrite Hnil in Hu. by apply elem_of_nil in Hu.
  - destruct (record_failures events []) as [|u l] eqn:Hr; [done|].
    assert (u ∈ record_failures events []) as Hu
      by (rewrite Hr; apply list_elem_of_here).
    apply elem_of_record_failures in Hu as [Hu|Hu].
    + by apply elem_of_nil in Hu.
    + rewrite Hnil in Hu. by apply elem_of_nil in Hu.
Qed.

(** X14. A run that reaches the first pass (complete configuration,
    non-empty queue) and either has no cookies file configured or meets
    no failure in the first pass makes one pass only and returns
    normally. Its failed URLs are those the first pass recorded; when
    there are some they are logged at ERROR level with their number
    between the end-of-pass line and the closing line, and when there
    are none nothing is logged between the two. *)
Theorem run_without_retry w disk :
  let config := world_config w in
  let queue := world_queue w in
  let opts1 := create_youtube_dl_options config false in
  let failed := record_failures (ydl_events w queue opts1) [] in
  config_missing config = [] →
  queue ≠ [] →
  ¬ cookies_configured config ∨ pass_failures (ydl_events w queue opts1) = [] →
  ∃ final front,
    run_main w disk = (Ok (), final) ∧
    ydl_calls final = [(queue, opts1)] ∧
    failed_urls final = failed ∧
    out final
    = front ++ [Log INFO MsgFirstCompleted]
        ++ (if bool_decide (failed = []) then []
            else [Log ERROR (MsgDownloadsFailed (len failed) failed)])
        ++ [Log INFO MsgAllCompleted].
Proof.
  intros config queue opts1 failed Hm Hq Hno.
  destruct (main_passes w disk Hm Hq)
    as (s0 & s1 & Hf0 & Hc0 & Hrun1 & Hc1 & Hf1 & Hrest).
  fold config queue opts1 in Hrun1, Hc1, Hf1, Hrest. fold failed in Hf1.
  destruct (retry_condition config (failed_urls s1)) eqn:Hretry.
  { apply retry_condition_spec in Hretry as [Hne Hcookies].
    destruct Hno as [Hno|Hno]; [done|].
    apply record_failures_nil_iff in Hno.
    exfalso. apply Hne. rewrite Hf1. exact Hno. }
  eexists _, (out s1). split; [exact Hrest|]. simpl.
  split; [done|]. split; [done|].
  unfold first_report. by rewrite Hf1.
Qed.

Lemma run_without_retry_witness :
  let w := Sample.w_blank_cookies in
  let config := world_config w in
  let queue := world_queue w in
  let opts1 := create_youtube_dl_options config false in
  let failed := record_failures (ydl_events w queue opts1) [] in
  config_missing config = [] ∧
  queue ≠ [] ∧
  (¬ cookies_configured config
   ∨ pass_failures (ydl_events w queue opts1) = []) ∧
  ∃ final front,
    run_main w ∅ = (Ok (), final) ∧
    ydl_calls final = [(queue, opts1)] ∧
    failed_urls final = failed ∧
    out final
    = front ++ [Log INFO MsgFirstCompleted]
        ++ (if bool_decide (failed = []) then []
            else [Log ERROR (MsgDownloadsFailed (len failed) failed)])
        ++ [Log INFO MsgAllCompleted].
Proof.
  assert (config_missing (world_config Sample.w_blank_cookies) = []) as Hm
    by (vm_compute; reflexivity).
  assert (world_queue Sample.w_blank_cookies ≠ []) as Hq
    by (vm_compute; discriminate).
  assert (¬ cookies_configured (world_config Sample.w_blank_cookies)
          ∨ pass_failures
              (ydl_events Sample.w_blank_cookies
                 (world_queue Sample.w_blank_cookies)
                 (create_youtube_dl_options
                    (world_config Sample.w_blank_cookies) false)) = [])
    as Hno.
  { left. intros (path & Hpath & Hne). vm_compute in Hpath.
    injection Hpath as <-. done. }
  split; [exact Hm|]. split; [exact Hq|]. split; [exact Hno|].
  exact (run_without_retry Sample.w_blank_cookies ∅ Hm Hq Hno).
Defined.



Example sample_run_playlist_lines :
  run_playlist_lines Sample.w = "/srv/music/Two [id2].mp3" +:+ Py.newline.
Proof. vm_compute. reflexivity. Qed.

(** X16. The aggregate bar belongs to a pass: each pass replaces it by
    a new one. After a run with a retry pass the bar left in place is the
    one of the retry: it is closed, its total is the number of retried
    URLs, not the length of the original queue, and its counter is the
    number of terminal events of the retry pass. *)
Theorem aggregate_bar_after_retry w disk :
  let final := (run_main w disk).2 in
  length (ydl_calls final) = 2%nat →
  ∃ first_call retry_list opts2 g,
    ydl_calls final = [first_call; (retry_list, opts2)] ∧
    global_progress_bar final = Some g ∧
    Tqdm.total g = len retry_list ∧
    Tqdm.n g = count_terminal (ydl_events w retry_list opts2) ∧
    Tqdm.disable g = true.
Proof.
  intros final Hcalls.
  destruct (decide (config_missing (world_config w) = [])) as [Hm|Hm]; cycle 1.
  { destruct (main_config_error w disk Hm) as (s & Hrun & Hnone & _).
    unfold final in Hcalls. rewrite Hrun in Hcalls. simpl in Hcalls.
    rewrite Hnone in Hcalls. discriminate Hcalls. }
  destruct (decide (world_queue w = [])) as [Hq|Hq].
  { destruct (main_empty_queue w disk Hm Hq) as (s & Hrun & Hnone & _).
    unfold final in Hcalls. rewrite Hrun in Hcalls. simpl in Hcalls.
    rewrite Hnone in Hcalls. discriminate Hcalls. }
  destruct (main_passes_detail w disk Hm Hq)
    as (p & s0 & s1 & Hpath & Hp0 & _ & _ & Hc0 & Hrun1 & Hf1 & Hrest).
  destruct (download_songs_detail (ydl_events w) (world_queue w)
              (world_config w) false s0 p Hp0)
    as (s1' & g1 & Hrun1' & _ & _ & _ & _ & _ & Hc1 & _).
  rewrite Hrun1 in Hrun1'. injection Hrun1' as <-. rewrite Hc0 in Hc1.
  destruct (retry_condition _ _); cycle 1.
  { unfold final in Hcalls. rewrite Hrest in Hcalls. simpl in Hcalls.
    rewrite Hc1 in Hcalls. discriminate Hcalls. }
  destruct Hrest as (s2 & s3 & Hp2 & _ & _ & Hc2 & Hrun3 & Hmain).
  destruct (download_songs_detail (ydl_events w) (failed_urls s1)
              (world_config w) true s2 p Hp2)
    as (s3' & g3 & Hrun3' & Hg3 & Htotal & Hn & Hclosed & _ & Hc3 & _).
  rewrite Hrun3 in Hrun3'. injection Hrun3' as <-.
  rewrite Hc2, Hc1 in Hc3.
  eexists _, (failed_urls s1), _, g3.
  unfold final. rewrite Hmain. simpl.
  split; [exact Hc3|]. done.
Qed.

Lemma aggregate_bar_after_retry_witness :
  let final := (run_main Sample.w ∅).2 in
  length (ydl_calls final) = 2%nat ∧
  ∃ first_call retry_list opts2 g,
    ydl_calls final = [first_call; (retry_list, opts2)] ∧
    global_progress_bar final = Some g ∧
    Tqdm.total g = len retry_list ∧
    Tqdm.n g = count_terminal (ydl_events Sample.w retry_list opts2) ∧
    Tqdm.disable g = true.
Proof.
  assert (length (ydl_calls (run_main Sample.w ∅).2) = 2%nat) as Hcalls
    by (vm_compute; reflexivity).
  split; [exact Hcalls|].
  exact (aggregate_bar_after_retry Sample.w ∅ Hcalls).
Defined.

(** X17. With a complete configuration, a playlist answer without
    ["tracks"] entry, or with an empty one, is an empty playlist: the run
    logs that 0 songs were retrieved and that 0 are new, then exits with
    code 0. The playlist path has been set, and nothing else happened:
    no pass, no bar, no failed URL, no file touched. *)
Theorem run_on_empty_playlist w disk :
  unset_settings (environ w) = [] →
  api_tracks w = None ∨ api_tracks w = Some [] →
  run_main w disk
  = (Raise (SystemExit 0),
     set_out [ Log INFO (MsgLoadedEnv (env_file w));
               Log INFO MsgInitApi;
               Log INFO (MsgRetrieving (environ w !! "PLAYLIST_ID"));
               Log INFO (MsgRetrieved 0);
               Log INFO MsgScanning;
               Log INFO (MsgFound (len (folder_mp3 w)));
               Log INFO MsgBuilding;
               Log INFO (MsgTotalNew 0);
               Log INFO MsgNoNewSongs ]
       (set_PLAYLIST_FILEPATH (environ w !! "PLAYLIST_FILEPATH")
          (initial_state disk))).
Proof.
  intros Hm Htracks. rewrite <- config_missing_unset in Hm.
  assert (Py.get (api_tracks w) [] = []) as Hnone
    by (destruct Htracks as [-> | ->]; reflexivity).
  unfold run_main, main.
  mstep. mstep. unfold try_except_ValueError.
  rewrite load_configuration_run, Hm.
  do 3 mstep. rewrite Hnone.
  unfold get_already_downloaded. do 3 mstep.
  reflexivity.
Qed.

Lemma run_on_empty_playlist_witness :
  let w := {| env_file := ".env"; environ := Sample.env; api_tracks := None;
              folder_mp3 := Sample.folder; ydl_events := Sample.ydl |} in
  unset_settings (environ w) = [] ∧
  (api_tracks w = None ∨ api_tracks w = Some []) ∧
  run_main w ∅
  = (Raise (SystemExit 0),
     set_out [ Log INFO (MsgLoadedEnv (env_file w));
               Log INFO MsgInitApi;
               Log INFO (MsgRetrieving (environ w !! "PLAYLIST_ID"));
               Log INFO (MsgRetrieved 0);
               Log INFO MsgScanning;
               Log INFO (MsgFound (len (folder_mp3 w)));
               Log INFO MsgBuilding;
               Log INFO (MsgTotalNew 0);
               Log INFO MsgNoNewSongs ]
       (set_PLAYLIST_FILEPATH (environ w !! "PLAYLIST_FILEPATH")
          (initial_state ∅))).
Proof.
  assert (unset_settings Sample.env = []) as Hm by (vm_compute; reflexivity).
  split; [exact Hm|]. split; [by left|].
  exact (run_on_empty_playlist
           {| env_file := ".env"; environ := Sample.env; api_tracks := None;
              folder_mp3 := Sample.folder; ydl_events := Sample.ydl |}
           ∅ Hm (or_introl eq_refl)).
Defined.

(* ===================================================================== *)
(** * The listing of the music folder *)
(* ===================================================================== *)

Lemma endswith_spec suffix name :
  endswith suffix name = true ↔ ∃ front, name = front +:+ suffix.
Proof.
  unfold endswith. rewrite startswith_spec. split.
  - intros [rest Hrest]. exists (String.rev rest).
    rewrite <- (string_rev_involutive name), Hrest, string_rev_app.
    by rewrite string_rev_involutive.
  - intros [front ->]. exists (String.rev front). apply string_rev_app.
Qed.

Lemma elem_of_glob_mp3 entries name :
  name ∈ glob_mp3 entries ↔
  ∃ e, e ∈ entries ∧ entry_name e = name ∧ entry_is_file e = true ∧
       ∃ front, name = front +:+ ".mp3".
Proof.
  unfold glob_mp3. rewrite list_elem_of_fmap. split.
  - intros (e & -> & Hin). apply list_elem_of_In, filter_In in Hin as [Hin He].
    apply andb_true_iff in He as [Hend Hfile].
    exists e. rewrite list_elem_of_In. by rewrite <- endswith_spec.
  - intros (e & Hin & <- & Hfile & Hend). exists e. split; [done|].
    apply list_elem_of_In, filter_In. rewrite <- list_elem_of_In.
    split; [done|]. apply andb_true_iff. by rewrite endswith_spec.
Qed.

(** X18. When the listing of downloaded songs is computed from the
    entries of the music folder, as [get_already_downloaded] does, a
    track with an identifier is kept out of the queue exactly when the
    folder holds a regular file whose name ends in [.mp3] and contains
    the token [[videoId]]. A directory, or a file with another ending
    such as a partial download, does not hide the track, whatever its
    name; the scan itself returns the names it kept and logs their
    number. *)
Theorem only_regular_mp3_files_hide_a_track entries t video_id s :
  track_videoId t = Some video_id →
  video_id ≠ "" →
  ∃ s1,
    get_already_downloaded (glob_mp3 entries) s
    = (Ok (glob_mp3 entries), s1) ∧
    out s1 = out s ++ [Log INFO MsgScanning;
                       Log INFO (MsgFound (len (glob_mp3 entries)))] ∧
    ((build_download_queue [t] (glob_mp3 entries) s1).1 = Ok [] ↔
     ∃ e front,
       e ∈ entries ∧ entry_is_file e = true ∧
       entry_name e = front +:+ ".mp3" ∧
       substring ("[" +:+ video_id +:+ "]") (entry_name e)).
Proof.
  intros Hid Hne. unfold get_already_downloaded. unfold_m.
  eexists. split; [reflexivity|]. simpl.
  split; [by rewrite <- app_assoc|].
  rewrite build_download_queue_run. simpl. unfold queue_of. simpl.
  unfold queued_url. rewrite Hid, bool_decide_eq_false_2 by done.
  destruct (any_contains video_id (glob_mp3 entries)) eqn:Hany.
  - split; [|done]. intros _.
    apply any_contains_spec in Hany as (name & Hin & Hsub).
    apply elem_of_glob_mp3 in Hin as (e & Hin & <- & Hfile & front & Hend).
    by exists e, front.
  - split; [done|]. intros (e & front & Hin & Hfile & Hend & Hsub).
    pose proof (proj1 (any_contains_false _ _) Hany (entry_name e)) as Hno.
    exfalso. apply Hno; [|done].
    apply elem_of_glob_mp3. exists e. eauto.
Qed.

Lemma only_regular_mp3_files_witness :
  track_videoId (Track (Some "Two") (Some "id2")) = Some "id2" ∧
  "id2" ≠ "" ∧
  ∃ s1,
    get_already_downloaded
      (glob_mp3 [DirEntry "Two [id2].webm" true; DirEntry "[id2].mp3" false])
      (initial_state ∅)
    = (Ok (glob_mp3 [DirEntry "Two [id2].webm" true;
                     DirEntry "[id2].mp3" false]), s1) ∧
    out s1
    = out (initial_state ∅)
      ++ [Log INFO MsgScanning;
          Log INFO
            (MsgFound
               (len (glob_mp3 [DirEntry "Two [id2].webm" true;
                               DirEntry "[id2].mp3" false])))] ∧
    ((build_download_queue [Track (Some "Two") (Some "id2")]
        (glob_mp3 [DirEntry "Two [id2].webm" true;
                   DirEntry "[id2].mp3" false]) s1).1 = Ok [] ↔
     ∃ e front,
       e ∈ [DirEntry "Two [id2].webm" true; DirEntry "[id2].mp3" false] ∧
       entry_is_file e = true ∧
       entry_name e = front +:+ ".mp3" ∧
       substring ("[" +:+ "id2" +:+ "]") (entry_name e)).
Proof.
  assert ("id2" ≠ "") as Hne by discriminate.
  split; [reflexivity|]. split; [exact Hne|].
  exact (only_regular_mp3_files_hide_a_track
           [DirEntry "Two [id2].webm" true; DirEntry "[id2].mp3" false]
           (Track (Some "Two") (Some "id2")) "id2" (initial_state ∅)
           eq_refl Hne).
Defined.

Example partial_download_is_queued_again :
  glob_mp3 [ DirEntry "One [id1].mp3" true; DirEntry "Two [id2].webm" true;
             DirEntry "Two [id2].mp3.part" true;
             DirEntry "Old [id2].mp3" false; DirEntry ".mp3" true ]
  = ["One [id1].mp3"; ".mp3"] ∧
  (build_download_queue Sample.tracks
     (glob_mp3 [ DirEntry "One [id1].mp3" true;
                 DirEntry "Two [id2].webm" true;
                 DirEntry "Two [id2].mp3.part" true;
                 DirEntry "Old [id2].mp3" false ])
     (initial_state ∅)).1
  = Ok [video_url "id2"].
Proof. vm_compute. split; reflexivity. Qed.
